(** * TaskFlow: a file-persisted task queue

    A shallow embedding of the store, claim, completion, retry/backoff and
    dead-task requeue operations of [taskflow.js] and of its worker-pool
    sibling (the second script of the repository), with the properties the
    specification states about them.

    Conventions of the embedding.
    - The data file is modelled by its parsed content ([File]) together
      with the number of times it has been written ([Disk]); the text
      encoding ([JSON.stringify]/[JSON.parse]) is not part of the model.
    - Numbers are integers ([Z], and [N] for the two counters [attempts]
      and [max_retries]) and their arithmetic is exact, as that of the
      scripts is up to [Number.MAX_SAFE_INTEGER]; strings are sequences of
      code units, ordered as [<=] orders them (for the collation behind
      [localeCompare] see [Host.localeCompare]). A record carries the
      fields the scripts read or write.
    - Every clock reading ([Date.now()], [new Date()]) is an explicit
      argument, in milliseconds since the epoch.
    - An object of the [tasks] array is identified by its index: the code
      mutates the object it found in place, and the model updates the list
      at that index. *)

From Stdlib Require Import ZArith Ascii String List Bool Lia.
From stdpp Require Import base option list strings sorting gmap pretty.

Local Open Scope string_scope.
Local Open Scope list_scope.
Local Open Scope Z_scope.

(** ** Host functions: time values and their ISO-8601 rendering *)

Module Host.

(** [Date]: a time value is valid when it lies within 8.64e15 ms of the
    epoch; [new Date(v)] outside that range is an invalid date. *)
Definition MAX_TIME : Z := 8640000000000000.

Definition valid_time (tv : Z) : bool :=
  (- MAX_TIME <=? tv) && (tv <=? MAX_TIME).

Definition MS_PER_DAY : Z := 86400000.

(** Proleptic Gregorian date of a day number counted from 1970-01-01. *)
Definition civil_from_days (day : Z) : Z * Z * Z :=
  let z := day + 719468 in
  let era := z / 146097 in
  let doe := z - era * 146097 in
  let yoe := (doe - doe / 1460 + doe / 36524 - doe / 146096) / 365 in
  let doy := doe - (365 * yoe + yoe / 4 - yoe / 100) in
  let mp := (5 * doy + 2) / 153 in
  let d := doy - (153 * mp + 2) / 5 + 1 in
  let m := if mp <? 10 then mp + 3 else mp - 9 in
  let y := yoe + era * 400 + (if m <=? 2 then 1 else 0) in
  (y, m, d).

Definition digit (n : Z) : ascii := ascii_of_N (48 + Z.to_N (n mod 10)).

(** Decimal rendering of [n >= 0], zero-padded (and truncated) to [w] digits. *)
Fixpoint digits (w : nat) (n : Z) : string :=
  match w with
  | O => EmptyString
  | S w' => digits w' (n / 10) +:+ String (digit n) EmptyString
  end.

Definition iso_year (y : Z) : string :=
  if (0 <=? y) && (y <=? 9999) then digits 4 y
  else (if y <? 0 then "-" else "+") +:+ digits 6 (Z.abs y).

(** The text [Date.prototype.toISOString] produces for a valid time value. *)
Definition iso_string (tv : Z) : string :=
  let day := tv / MS_PER_DAY in
  let ms := tv mod MS_PER_DAY in
  let '(y, m, d) := civil_from_days day in
  iso_year y +:+ "-" +:+ digits 2 m +:+ "-" +:+ digits 2 d +:+ "T" +:+
  digits 2 (ms / 3600000) +:+ ":" +:+ digits 2 (ms / 60000 mod 60) +:+ ":" +:+
  digits 2 (ms / 1000 mod 60) +:+ "." +:+ digits 3 (ms mod 1000) +:+ "Z".

(** [a.localeCompare(b)] on the strings for which the collation of the
    host is the order of code units: strings of one length that differ in
    digits only, as two timestamps of [toISOString] with the same sign
    and width of year do. On other strings the host collates otherwise
    (['a'] before ['B'], ['-'] before ['+']); that order is not modelled,
    and what is stated of the order of a claim is stated of such
    timestamps. *)
Definition localeCompare (a b : string) : Z :=
  match String.compare a b with Lt => -1 | Eq => 0 | Gt => 1 end.

(** [Array.prototype.sort] is a stable sort: with a consistent comparator
    its result is the one stably sorted arrangement, which straight
    insertion computes. [a] stays before [b] unless [cmp a b > 0]. *)
Section Sort.
Context {A : Type} (cmp : A -> A -> Z).

Fixpoint insert (x : A) (l : list A) : list A :=
  match l with
  | [] => [x]
  | y :: l' => if 0 <? cmp x y then y :: insert x l' else x :: l
  end.

Definition sort (l : list A) : list A := foldr insert [] l.
End Sort.

(** [Number.MAX_SAFE_INTEGER]: up to this count [n + 1] is exact, which
    it is not for every larger number. *)
Definition MAX_SAFE_INTEGER : N := 9007199254740991.

(** [Math.pow] on an integer base and a non-negative integer exponent. *)
Definition Math_pow (b : Z) (k : N) : Z := b ^ Z.of_N k.

(** Truthiness and the [||], [??] defaults on optional fields
    ([None] stands for an absent or [null] field). *)
Definition truthy_str (o : option string) : bool :=
  match o with Some s => negb (s =? "")%string | None => false end.

Definition str_or (o : option string) (d : string) : string :=
  match o with Some s => if (s =? "")%string then d else s | None => d end.

Definition str_or_null (o : option string) : option string :=
  match o with Some s => if (s =? "")%string then None else Some s | None => None end.

Definition Z_or (o : option Z) (d : Z) : Z :=
  match o with Some n => if n =? 0 then d else n | None => d end.

Definition Z_or_null (o : option Z) : option Z :=
  match o with Some n => if n =? 0 then None else Some n | None => None end.

Definition N_or (o : option N) (d : N) : N :=
  match o with Some n => if (n =? 0)%N then d else n | None => d end.

Definition nullish {T : Type} (o : option T) (d : T) : T :=
  match o with Some x => x | None => d end.

End Host.

(** ** Data model *)

Module Config.
Record t := mk { max_retries : option N; backoff_base : option Z }.
End Config.

Definition DEFAULT_MAX_RETRIES : N := 3.
Definition DEFAULT_BACKOFF_BASE : Z := 2.

Definition DEFAULT_CONF : Config.t :=
  {| Config.max_retries := Some DEFAULT_MAX_RETRIES;
     Config.backoff_base := Some DEFAULT_BACKOFF_BASE |}.

(** A task record of the canonical schema. *)
Module Task.
Record t := mk {
  id : string;
  command : string;
  state : string;
  attempts : N;
  max_retries : N;
  created_at : option string;
  updated_at : option string;
  next_run_at : option string;
  last_error : option string;
  exit_code : option Z
}.

(** Field assignments [t.f = v]. *)
Definition with_state (v : string) (x : t) : t :=
  mk (id x) (command x) v (attempts x) (max_retries x) (created_at x)
     (updated_at x) (next_run_at x) (last_error x) (exit_code x).
Definition with_attempts (v : N) (x : t) : t :=
  mk (id x) (command x) (state x) v (max_retries x) (created_at x)
     (updated_at x) (next_run_at x) (last_error x) (exit_code x).
Definition with_updated_at (v : option string) (x : t) : t :=
  mk (id x) (command x) (state x) (attempts x) (max_retries x) (created_at x)
     v (next_run_at x) (last_error x) (exit_code x).
Definition with_next_run_at (v : option string) (x : t) : t :=
  mk (id x) (command x) (state x) (attempts x) (max_retries x) (created_at x)
     (updated_at x) v (last_error x) (exit_code x).
Definition with_last_error (v : option string) (x : t) : t :=
  mk (id x) (command x) (state x) (attempts x) (max_retries x) (created_at x)
     (updated_at x) (next_run_at x) v (exit_code x).
Definition with_exit_code (v : option Z) (x : t) : t :=
  mk (id x) (command x) (state x) (attempts x) (max_retries x) (created_at x)
     (updated_at x) (next_run_at x) (last_error x) v.
End Task.

(** A job record of the legacy schema ([jobs[]]). *)
Module Job.
Record t := mk {
  id : string;
  command : string;
  state : option string;
  attempts : option N;
  max_retries : option N;
  created_at : option string;
  updated_at : option string;
  next_attempt_at : option string;
  last_error : option string;
  exit_code : option Z
}.
End Job.

(** The object handed to [add]. *)
Module Payload.
Record t := mk {
  id : option string;
  command : option string;
  state : option string;
  attempts : option N;
  max_retries : option N;
  created_at : option string;
  updated_at : option string;
  next_run_at : option string;
  last_error : option string;
  exit_code : option Z
}.
End Payload.

(** The snapshot [{ tasks, config }] the operations work on. *)
Record Data := { tasks : list Task.t; config : Config.t }.

(** What [DATA_FILE] holds. The [config] of a parsed file is [None] when
    the key is absent or not an object. *)
Inductive File :=
| NoFile
| Unparsable
| OtherShape
| LegacyFile (jobs : list Job.t) (config : option Config.t)
| TasksFile (tasks : list Task.t) (config : option Config.t).

(** The disk: what [DATA_FILE] holds, and how many times it has been
    replaced. *)
Record Disk := { content : File; writes : nat }.

(** ** The store monad: the disk as state, with the ways a call ends *)

Inductive exn := MissingCommand | InvalidTimeValue | TypeError.

Inductive outcome (A : Type) :=
| Returned (a : A)
| Thrown (e : exn)
| Exited (code : Z).
Arguments Returned {A} a.
Arguments Thrown {A} e.
Arguments Exited {A} code.

Definition Store (A : Type) : Type := Disk -> outcome A * Disk.

#[global] Instance Store_ret : MRet Store := fun A a d => (Returned a, d).
#[global] Instance Store_bind : MBind Store := fun A B k m d =>
  match m d with
  | (Returned a, d') => k a d'
  | (Thrown e, d') => (Thrown e, d')
  | (Exited c, d') => (Exited c, d')
  end.

(** Reading [DATA_FILE]; writing a temporary file and renaming it onto
    [DATA_FILE]. *)
Definition readFile : Store File := fun d => (Returned (content d), d).
Definition writeFile (f : File) : Store unit :=
  fun d => (Returned tt, {| content := f; writes := S (writes d) |}).
Definition throw {A} (e : exn) : Store A := fun d => (Thrown e, d).
Definition process_exit {A} (code : Z) : Store A := fun d => (Exited code, d).

(** [new Date(v).toISOString()]: a [RangeError] on an invalid date. *)
Definition Date_toISOString (tv : Z) : Store string :=
  if Host.valid_time tv then mret (Host.iso_string tv) else throw InvalidTimeValue.

(** [timestamp()], the clock reading being [clock]. *)
Definition timestamp (clock : Z) : string := Host.iso_string clock.

Arguments timestamp : simpl never.

(** ** Store *)

Definition saveData (data : Data) : Store unit :=
  writeFile (TasksFile (tasks data) (Some (config data))).

Definition migrate_state (s : option string) : string :=
  match s with
  | Some s =>
      if (s =? "pending")%string then "waiting"
      else if (s =? "processing")%string then "running"
      else if (s =? "completed")%string then "done"
      else if (s =? "dead")%string then "failed"
      else Host.str_or (Some s) "waiting"
  | None => "waiting"
  end.

Definition migrate (j : Job.t) : Task.t :=
  {| Task.id := Job.id j;
     Task.command := Job.command j;
     Task.state := migrate_state (Job.state j);
     Task.attempts := Host.N_or (Job.attempts j) 0%N;
     Task.max_retries := Host.nullish (Job.max_retries j) DEFAULT_MAX_RETRIES;
     Task.created_at := Job.created_at j;
     Task.updated_at := Job.updated_at j;
     Task.next_run_at := Host.str_or_null (Job.next_attempt_at j);
     Task.last_error := Host.str_or_null (Job.last_error j);
     Task.exit_code := Host.Z_or_null (Job.exit_code j) |}.

Definition empty_data : Data := {| tasks := []; config := DEFAULT_CONF |}.

Definition loadData : Store Data :=
  raw ← readFile;
  match raw with
  | NoFile => mret empty_data
  | Unparsable => mret empty_data
  | LegacyFile jobs cfg =>
      let migrated := {| tasks := map migrate jobs;
                         config := Host.nullish cfg DEFAULT_CONF |} in
      saveData migrated;;
      mret migrated
  | TasksFile ts cfg =>
      mret {| tasks := ts; config := Host.nullish cfg DEFAULT_CONF |}
  | OtherShape => mret empty_data
  end.

Definition initData : Store unit :=
  raw ← readFile;
  match raw with
  | NoFile => saveData empty_data
  | _ => mret tt
  end.

(** ** Adding a task *)

(** The object literal [entry] of [addTaskObject]. *)
Definition new_entry (task : Payload.t) (data : Data) (id now : string) : Task.t :=
  {| Task.id := id;
     Task.command := Host.str_or (Payload.command task) "";
     Task.state := Host.str_or (Payload.state task) "waiting";
     Task.attempts := Host.N_or (Payload.attempts task) 0%N;
     Task.max_retries :=
       Host.nullish (Payload.max_retries task)
         (Host.nullish (Config.max_retries (config data)) DEFAULT_MAX_RETRIES);
     Task.created_at := Some (Host.str_or (Payload.created_at task) now);
     Task.updated_at := Some (Host.str_or (Payload.updated_at task) now);
     Task.next_run_at := Host.str_or_null (Payload.next_run_at task);
     Task.last_error := Host.str_or_null (Payload.last_error task);
     Task.exit_code := Host.Z_or_null (Payload.exit_code task) |}.

(** [addTaskObject(task)]; [uuid] is what [uuidv4()] yields and [clock] the
    reading behind [timestamp()]. *)
Definition addTaskObject (task : Payload.t) (uuid : string) (clock : Z)
  : Store string :=
  if negb (Host.truthy_str (Payload.command task)) then throw MissingCommand
  else
    data ← loadData;
    let id := Host.str_or (Payload.id task) uuid in
    let now := timestamp clock in
    let entry := new_entry task data id now in
    match list_find (fun t => Task.id t = id) (tasks data) with
    | Some (idx, _) =>
        saveData {| tasks := <[idx := entry]> (tasks data);
                    config := config data |}
    | None =>
        saveData {| tasks := tasks data ++ [entry]; config := config data |}
    end;;
    mret id.

(** ** Scheduler / claimer *)

(** [t.state === 'waiting' && (!t.next_run_at || t.next_run_at <= now)] *)
Definition eligible (now : string) (t : Task.t) : bool :=
  (Task.state t =? "waiting")%string &&
  (negb (Host.truthy_str (Task.next_run_at t)) ||
   match Task.next_run_at t with
   | Some s => (s <=? now)%string
   | None => false
   end).

(** [(a, b) => (a.created_at || '').localeCompare(b.created_at || '')] *)
Definition by_created_at (a b : Task.t) : Z :=
  Host.localeCompare (Host.str_or (Task.created_at a) "")
                     (Host.str_or (Task.created_at b) "").

(** The array [available]: the eligible objects, each with the index it
    has in [data.tasks], oldest first. *)
Definition available (now : string) (ts : list Task.t) : list (nat * Task.t) :=
  Host.sort (fun a b => by_created_at a.2 b.2)
    (filter (fun it => eligible now it.2) (imap pair ts)).

(** [claimTask()]; the two calls of [timestamp()] read [clock1], [clock2]. *)
Definition claimTask (clock1 clock2 : Z) : Store (option Task.t) :=
  data ← loadData;
  let now := timestamp clock1 in
  match available now (tasks data) with
  | [] => mret None
  | (i, task) :: _ =>
      let task := Task.with_state "running" task in
      let task := Task.with_updated_at (Some (timestamp clock2)) task in
      saveData {| tasks := <[i := task]> (tasks data); config := config data |};;
      mret (Some task)
  end.

(** ** Completion and the retry / backoff policy *)

Definition markDone (id : string) (clock : Z) : Store unit :=
  data ← loadData;
  match list_find (fun t => Task.id t = id) (tasks data) with
  | None => mret tt
  | Some (i, t) =>
      let t := Task.with_state "done" t in
      let t := Task.with_exit_code (Some 0) t in
      let t := Task.with_updated_at (Some (timestamp clock)) t in
      saveData {| tasks := <[i := t]> (tasks data); config := config data |}
  end.

(** The two scripts differ in the test that ends the retries:
    [taskflow.js] has [t.attempts > t.max_retries], the worker-pool script
    has [t.attempts >= t.max_retries]. *)
Inductive script := TaskflowJs | PoolScript.

Definition exhausted (v : script) (attempts max_retries : N) : bool :=
  match v with
  | TaskflowJs => (max_retries <? attempts)%N
  | PoolScript => (max_retries <=? attempts)%N
  end.

(** [base || data.config.backoff_base || DEFAULT_CONF.backoff_base] *)
Definition backoff_base (base : option Z) (cfg : Config.t) : Z :=
  Host.Z_or base (Host.Z_or (Config.backoff_base cfg) DEFAULT_BACKOFF_BASE).

(** [markFailed(id, attempts, maxRetries, code, err, base)]; [dateNow] is
    the reading of [Date.now()], [clock] the one behind [timestamp()].
    [Number(attempts) + 1] is the successor for counts up to
    [Host.MAX_SAFE_INTEGER]. *)
Definition markFailed (v : script) (id : string) (attempts maxRetries : N)
    (code : Z) (err : string) (base : option Z) (dateNow clock : Z)
  : Store unit :=
  data ← loadData;
  match list_find (fun t => Task.id t = id) (tasks data) with
  | None => mret tt
  | Some (i, t) =>
      let t := Task.with_attempts (attempts + 1)%N t in
      let t := Task.with_last_error (Some err) t in
      let t := Task.with_exit_code (Some code) t in
      if exhausted v (Task.attempts t) (Task.max_retries t) then
        let t := Task.with_state "failed" t in
        let t := Task.with_updated_at (Some (timestamp clock)) t in
        saveData {| tasks := <[i := t]> (tasks data); config := config data |}
      else
        let delay := Host.Math_pow (backoff_base base (config data))
                                   (Task.attempts t) in
        next ← Date_toISOString (dateNow + delay * 1000);
        let t := Task.with_next_run_at (Some next) t in
        let t := Task.with_state "waiting" t in
        let t := Task.with_updated_at (Some (timestamp clock)) t in
        saveData {| tasks := <[i := t]> (tasks data); config := config data |}
  end.

(** ** Dead-task requeue: the action of [dead retry <id>] *)

Definition deadRetry (id : string) (clock : Z) : Store unit :=
  data ← loadData;
  match list_find (fun t => Task.id t = id /\ Task.state t = "failed")
                  (tasks data) with
  | None => process_exit 1
  | Some (i, t) =>
      let t := Task.with_state "waiting" t in
      let t := Task.with_attempts 0%N t in
      let t := Task.with_next_run_at None t in
      let t := Task.with_updated_at (Some (timestamp clock)) t in
      saveData {| tasks := <[i := t]> (tasks data); config := config data |}
  end.

(** ** The built-in check: the action of [selfcheck] *)

(** The script computes [DATA_FILE] once, when it is loaded, so the check
    runs against the store itself. It yields what it compares:
    [s === 'failed']. *)
Definition selfcheck (v : script) (uuid : string) (c_add c_now c_fail : Z)
  : Store bool :=
  initData;;
  id ← addTaskObject
         (Payload.mk None (Some "echo test") None None (Some 1%N)
                     None None None None None) uuid c_add;
  db ← loadData;
  match tasks db with
  | [] => throw TypeError
  | t :: _ =>
      markFailed v (Task.id t) (Task.attempts t) (Task.max_retries t)
                 1 "simulate" (Some 2) c_now c_fail;;
      db' ← loadData;
      match tasks db' with
      | [] => throw TypeError
      | t' :: _ => mret (Task.state t' =? "failed")%string
      end
  end.

(** ** Vocabulary of the statements *)

(** The snapshot [loadData()] returns on a disk, and the disk it leaves. *)
Definition loaded (d : Disk) : Data :=
  match (loadData d).1 with Returned data => data | _ => empty_data end.

Definition after_load (d : Disk) : Disk := (loadData d).2.

Definition legacy (d : Disk) : bool :=
  match content d with LegacyFile _ _ => true | _ => false end.

(** The disk after [saveData(data)]: one more write. *)
Definition saved (data : Data) (d : Disk) : Disk :=
  {| content := TasksFile (tasks data) (Some (config data));
     writes := S (writes d) |}.

(** The snapshot with the record at index [i] replaced. *)
Definition with_task (i : nat) (t : Task.t) (data : Data) : Data :=
  {| tasks := <[i := t]> (tasks data); config := config data |}.

(** No task of [ts] can be claimed at [now]. *)
Definition idle (now : string) (ts : list Task.t) : Prop :=
  Forall (fun t => eligible now t = false) ts.

(** [claimTask()] called once per pair of clock readings. *)
Fixpoint claim_repeatedly (clocks : list (Z * Z)) : Store (list (option Task.t)) :=
  match clocks with
  | [] => mret []
  | (c1, c2) :: rest =>
      r ← claimTask c1 c2;
      rs ← claim_repeatedly rest;
      mret (r :: rs)
  end.

(** The [attempts] column of the stored records, in either schema. *)
Definition attempts_of (d : Disk) : list N :=
  match content d with
  | TasksFile ts _ => map Task.attempts ts
  | LegacyFile jobs _ => map (fun j => Host.N_or (Job.attempts j) 0%N) jobs
  | _ => []
  end.

Definition ids (ts : list Task.t) : list string := map Task.id ts.

(** The record [dead retry] leaves in place of a failed task [t]. *)
Definition requeued (clock : Z) (t : Task.t) : Task.t :=
  Task.with_updated_at (Some (timestamp clock))
    (Task.with_next_run_at None
       (Task.with_attempts 0%N (Task.with_state "waiting" t))).

(** The time value [markFailed] schedules the retry at, and the records it
    leaves in place of the task [t] it found. *)
Definition retry_time (base : option Z) (cfg : Config.t) (attempts : N)
    (dateNow : Z) : Z :=
  dateNow + Host.Math_pow (backoff_base base cfg) (attempts + 1) * 1000.

Definition failed_record (attempts : N) (code : Z) (err : string) (clock : Z)
    (t : Task.t) : Task.t :=
  Task.with_updated_at (Some (timestamp clock))
    (Task.with_state "failed"
       (Task.with_exit_code (Some code)
          (Task.with_last_error (Some err)
             (Task.with_attempts (attempts + 1)%N t)))).

Definition retry_record (attempts : N) (code : Z) (err : string)
    (next : string) (clock : Z) (t : Task.t) : Task.t :=
  Task.with_updated_at (Some (timestamp clock))
    (Task.with_state "waiting"
       (Task.with_next_run_at (Some next)
          (Task.with_exit_code (Some code)
             (Task.with_last_error (Some err)
                (Task.with_attempts (attempts + 1)%N t))))).

(** ** Sample stores *)

Module Sample.
(** 2026-01-01T00:00:00.000Z *)
Definition clock : Z := 1767225600000.

Definition stamp : option string := Some "2026-01-01T00:00:00.000Z".

(** A claimed task on its first attempt, allowed [max] retries. *)
Definition running (id : string) (attempts max : N) : Task.t :=
  Task.mk id "echo test" "running" attempts max stamp stamp None None None.

Definition waiting (id : string) (created : string) : Task.t :=
  Task.mk id "echo hi" "waiting" 0 3 (Some created) (Some created)
          None None None.

Definition failed (id : string) : Task.t :=
  Task.mk id "false" "failed" 3 3 stamp stamp None (Some "Exit 1") (Some 1).

Definition done (id : string) : Task.t :=
  Task.mk id "true" "done" 0 3 stamp stamp None None (Some 0).

(** A disk holding [ts] in the canonical schema, written [0] times. *)
Definition store_with (cfg : Config.t) (ts : list Task.t) : Disk :=
  {| content := TasksFile ts (Some cfg); writes := 0 |}.

Definition store (ts : list Task.t) : Disk := store_with DEFAULT_CONF ts.

Definition fresh : Disk := {| content := NoFile; writes := 0 |}.

(** A configuration whose [backoff_base] is 3. *)
Definition base3 : Config.t :=
  {| Config.max_retries := Some 3%N; Config.backoff_base := Some 3 |}.

Definition payload (id : option string) : Payload.t :=
  Payload.mk id (Some "echo again") None None None None None None None None.

Definition job (id : string) (state : string) : Job.t :=
  Job.mk id "echo old" (Some state) (Some 1%N) None stamp stamp
         (Some "2026-01-01T00:00:08.000Z") None None.
End Sample.

(** ** The calendar behind [toISOString] *)

(** The date of day [doe] of a 400-year era, the year counted from the
    start of the era. *)
Definition civil_of_doe (doe : Z) : Z * Z * Z :=
  let yoe := (doe - doe / 1460 + doe / 36524 - doe / 146096) / 365 in
  let doy := doe - (365 * yoe + yoe / 4 - yoe / 100) in
  let mp := (5 * doy + 2) / 153 in
  let d := doy - (153 * mp + 2) / 5 + 1 in
  let m := if mp <? 10 then mp + 3 else mp - 9 in
  (yoe + (if m <=? 2 then 1 else 0), m, d).

Definition lex3 (a b : Z * Z * Z) : comparison :=
  match a.1.1 ?= b.1.1 with
  | Eq => match a.1.2 ?= b.1.2 with Eq => a.2 ?= b.2 | c => c end
  | c => c
  end.

Definition date_ok (c : Z * Z * Z) : bool :=
  let '(y, m, d) := c in
  (0 <=? y) && (y <=? 400) && (1 <=? m) && (m <=? 12) && (1 <=? d) && (d <=? 31)
  && (if y =? 400 then m <=? 2 else true)
  && (if y =? 0 then 3 <=? m else true).

Definition before (a b : Z * Z * Z) : bool :=
  match lex3 a b with Lt => true | _ => false end.

(** One pass over the days of an era: each date is well formed and
    precedes the next one. *)
Definition scan_step (st : Z * (Z * Z * Z) * bool) : Z * (Z * Z * Z) * bool :=
  let '(k, c, ok) := st in
  let c' := civil_of_doe (k + 1) in
  (k + 1, c', ok && date_ok c && ((146096 <=? k) || before c c')).

Definition scan (n : N) : Z * (Z * Z * Z) * bool :=
  N.iter n scan_step (0, civil_of_doe 0, true).

(** The days and the time values whose ISO string has a four-digit year:
    0000-01-01T00:00:00.000Z to 9999-12-31T23:59:59.999Z. *)
Definition FIRST_DAY : Z := -719528.
Definition LAST_DAY : Z := 2932896.
Definition FIRST_MS : Z := -62167219200000.
Definition LAST_MS : Z := 253402300799999.

Definition four_digit_year (tv : Z) : bool := (FIRST_MS <=? tv) && (tv <=? LAST_MS).

(** The [created_at] of [t] is the timestamp of the time [tv], of a
    four-digit year. *)
Definition created_on (tv : Z) (t : Task.t) : Prop :=
  four_digit_year tv = true /\ Task.created_at t = Some (Host.iso_string tv).

(** ** Worker loop *)

(** How the spawned shell ends: the [exit] event with its code ([null]
    when a signal ended it), or the [error] event. *)
Inductive proc_event := ProcExit (code : option Z) | ProcError (err : string).

(** [execCommand(cmd)]: the promise resolves with the exit code, [-1] for
    [null], or rejects with the error (given by its text). *)
Definition execCommand (ev : proc_event) : Z + string :=
  match ev with
  | ProcExit (Some code) => inl code
  | ProcExit None => inl (-1)
  | ProcError err => inr err
  end.

(** [try { body } catch (err) { handler(err) }] *)
Definition try_catch {A} (body : Store A) (handler : exn -> Store A) : Store A :=
  fun d =>
    match body d with
    | (Thrown e, d') => handler e d'
    | r => r
    end.

(** [String(err)] for the errors of the model. *)
Definition String_of_exn (e : exn) : string :=
  match e with
  | InvalidTimeValue => "RangeError: Invalid time value"
  | MissingCommand =>
      "Error: Task must include a " +:+ String (ascii_of_nat 34) "command"
      +:+ String (ascii_of_nat 34) " field"
  | TypeError => "TypeError: Cannot read properties of undefined (reading 'id')"
  end.

(** The clock readings of one turn of the loop: the two of [claimTask],
    the two of the settling call, the two of [markFailed] in the [catch]
    block. *)
Record Clocks := {
  claim_now : Z;
  claim_stamp : Z;
  settle_now : Z;
  settle_stamp : Z;
  again_now : Z;
  again_stamp : Z
}.

(** [db.config.backoff_base || DEFAULT_CONF.backoff_base] *)
Definition worker_base (db : Data) : Z :=
  Host.Z_or (Config.backoff_base (config db)) DEFAULT_BACKOFF_BASE.

(** One turn of the loop of [workerLoopOnce] ([runWorker] in
    [taskflow.js]); [run] is what running a command leads to. *)
Definition workerTurn (v : script) (run : string -> proc_event) (ck : Clocks)
  : Store unit :=
  task ← claimTask (claim_now ck) (claim_stamp ck);
  match task with
  | None => mret tt
  | Some task =>
      db ← loadData;
      let base := worker_base db in
      match execCommand (run (Task.command task)) with
      | inl code =>
          try_catch
            (if code =? 0 then markDone (Task.id task) (settle_stamp ck)
             else markFailed v (Task.id task) (Task.attempts task)
                    (Task.max_retries task) code ("Exit " +:+ pretty code)
                    (Some base) (settle_now ck) (settle_stamp ck))
            (fun err =>
               markFailed v (Task.id task) (Task.attempts task)
                 (Task.max_retries task) (-1) (String_of_exn err)
                 (Some base) (again_now ck) (again_stamp ck))
      | inr err =>
          markFailed v (Task.id task) (Task.attempts task)
            (Task.max_retries task) (-1) err
            (Some base) (settle_now ck) (settle_stamp ck)
      end
  end.

(** The loop, run over the given turns: each starts by reading the
    shutdown flag. *)
Fixpoint workerLoopOnce (v : script) (run : string -> proc_event)
    (turns : list (bool * Clocks)) : Store unit :=
  match turns with
  | [] => mret tt
  | (shutdown, ck) :: rest =>
      if shutdown then mret tt
      else workerTurn v run ck;; workerLoopOnce v run rest
  end.

(** ** Listings: the actions of [list], [dead list] and [status] *)

(** What [list [--state s]] prints, one record per line. *)
Definition listAction (state : option string) : Store (list Task.t) :=
  data ← loadData;
  mret (if Host.truthy_str state
        then filter (fun t => Some (Task.state t) = state) (tasks data)
        else tasks data).

Definition deadListAction : Store (list Task.t) :=
  data ← loadData;
  mret (filter (fun t => Task.state t = "failed") (tasks data)).

(** A cell of the summary object: a count, or the text that [+ 1] makes
    of a value that is not a number. *)
Inductive tally := Count (n : N) | NotANumber.

(** The property names every object inherits from [Object.prototype]
    (apart from [__proto__]). *)
Definition PROTOTYPE_KEYS : list string :=
  ["constructor"; "__defineGetter__"; "__defineSetter__"; "hasOwnProperty";
   "__lookupGetter__"; "__lookupSetter__"; "isPrototypeOf";
   "propertyIsEnumerable"; "toString"; "valueOf"; "toLocaleString"].

(** [(a, t) => { a[t.state] = (a[t.state] || 0) + 1; return a; }] on an
    object that started as [{}]: an inherited property is read where the
    object has none of its own, and an assignment to [__proto__] of a
    value that is not an object does nothing. *)
Definition tally_step (a : gmap string tally) (t : Task.t) : gmap string tally :=
  let k := Task.state t in
  if (k =? "__proto__")%string then a
  else match a !! k with
       | Some (Count n) => <[k := Count (n + 1)]> a
       | Some NotANumber => <[k := NotANumber]> a
       | None =>
           if bool_decide (k ∈ PROTOTYPE_KEYS) then <[k := NotANumber]> a
           else <[k := Count 1]> a
       end.

Definition statusAction : Store (gmap string tally) :=
  data ← loadData;
  mret (foldl tally_step ∅ (tasks data)).

(** ** Worker pool registry *)

Module Pool.
Record Worker := { pid : Z; started_at : string }.

(** What [WORKERS_FILE] holds: nothing, something without a [workers]
    array (or unparsable), or the recorded workers. *)
Inductive Registry := NoRegistry | OtherRegistry | Workers (ws : list Worker).

(** The registry file, the processes that can be signalled, and the
    [SIGINT]s delivered so far. *)
Record t := { registry : Registry; alive : list Z; signalled : list Z }.

(** A line of the report of [worker stop]. *)
Inductive report := Sent (pid : Z) | CouldNotSignal (pid : Z) | NoMetadata.

(** [loadWorkersMeta().workers] when it is an array. *)
Definition recorded (r : Registry) : list Worker :=
  match r with Workers ws => ws | _ => [] end.

(** [spawnWorkers(count)]: [children] are the processes the system
    starts, each with the clock reading of its [started_at]. *)
Definition spawnWorkers (children : list (Z * Z)) (p : t) : t :=
  {| registry :=
       Workers (map (fun c => {| pid := c.1; started_at := timestamp c.2 |})
                    children);
     alive := alive p ++ map fst children;
     signalled := signalled p |}.

(** The processes [gone] end: they can no longer be signalled. *)
Definition exits (gone : list Z) (p : t) : t :=
  {| registry := registry p;
     alive := filter (fun x => x ∉ gone) (alive p);
     signalled := signalled p |}.

(** [process.kill(pid, 'SIGINT')] inside [try]/[catch]. *)
Definition signal (p : t) (w : Worker) : report :=
  if bool_decide (pid w ∈ alive p) then Sent (pid w) else CouldNotSignal (pid w).

Definition stopWorkersFromMeta (p : t) : list report * t :=
  match recorded (registry p) with
  | [] => ([NoMetadata], p)
  | ws =>
      (map (signal p) ws,
       {| registry := NoRegistry;
          alive := alive p;
          signalled :=
            signalled p ++ filter (fun x => x ∈ alive p) (map pid ws) |})
  end.
End Pool.

(** ** Vocabulary of the further statements *)

(** The fields no operation on a stored task assigns. *)
Definition immutable_part (t : Task.t) : string * string * N * option string :=
  (Task.id t, Task.command t, Task.max_retries t, Task.created_at t).

(** From [before] to [after] the configuration and the immutable part of
    every record are the same, and at most one record differs. *)
Definition kept (before after : Data) : Prop :=
  config after = config before /\
  map immutable_part (tasks after) = map immutable_part (tasks before) /\
  exists i, forall j, j <> i -> tasks after !! j = tasks before !! j.

(** The record [claimTask] returns for the stored record [t]. *)
Definition claimed (clock : Z) (t : Task.t) : Task.t :=
  Task.with_updated_at (Some (timestamp clock)) (Task.with_state "running" t).

(** The record [markDone] leaves in place of [t]. *)
Definition done_record (clock : Z) (t : Task.t) : Task.t :=
  Task.with_updated_at (Some (timestamp clock))
    (Task.with_exit_code (Some 0) (Task.with_state "done" t)).

(** What a turn of the worker scores when the command did not succeed:
    the exit code and the error text handed to [markFailed]. *)
Definition failure_of (ev : proc_event) : option (Z * string) :=
  match execCommand ev with
  | inl code => if code =? 0 then None else Some (code, "Exit " +:+ pretty code)
  | inr err => Some (-1, err)
  end.




(** ** A sample queue and sample turns *)

Module Demo.
(** One finished task and one waiting task. *)
Definition queue : Disk :=
  Sample.store [Sample.done "d"; Sample.waiting "b" "2026-01-01T00:00:00.000Z"].

(** A turn that starts at [t]: the command takes a second. *)
Definition turn (t : Z) : Clocks :=
  {| claim_now := t; claim_stamp := t;
     settle_now := t + 1000; settle_stamp := t + 1000;
     again_now := t + 1001; again_stamp := t + 1001 |}.

(** Every command ends the same way. *)
Definition always (ev : proc_event) : string -> proc_event := fun _ => ev.

(** A configuration whose retry delays leave the range of [Date]. *)
Definition far : Config.t :=
  {| Config.max_retries := Some 3%N; Config.backoff_base := Some (10 ^ 16) |}.

(** A task that failed once and is due for its retry eight seconds after
    [Sample.clock]. *)
Definition retrying : Task.t :=
  Task.mk "r" "false" "waiting" 1 3 Sample.stamp Sample.stamp
          (Some "2026-01-01T00:00:08.000Z") (Some "Exit 1") (Some 1).

(** A data file in the legacy schema, holding one finished job. *)
Definition legacy_file : Disk :=
  {| content := LegacyFile [Sample.job "j" "completed"] None; writes := 0 |}.
End Demo.

(** * Properties *)

(** ** The store monad *)

Lemma bind_returned {A B} (m : Store A) (k : A -> Store B) d a d' :
  m d = (Returned a, d') -> (m ≫= k) d = k a d'.
Proof. intros H. unfold mbind, Store_bind. by rewrite H. Qed.

Lemma bind_saveData {B} (data : Data) (k : unit -> Store B) d :
  (saveData data ≫= k) d = k tt (saved data d).
Proof. reflexivity. Qed.

Lemma saveData_returns data d : saveData data d = (Returned tt, saved data d).
Proof. reflexivity. Qed.

(** ** Loading *)

Lemma loadData_returns d : loadData d = (Returned (loaded d), after_load d).
Proof. unfold loaded, after_load. destruct d as [[] n]; reflexivity. Qed.

Lemma bind_loadData {B} (k : Data -> Store B) d :
  (loadData ≫= k) d = k (loaded d) (after_load d).
Proof. apply bind_returned, loadData_returns. Qed.

Lemma after_load_canonical d : legacy d = false -> after_load d = d.
Proof. destruct d as [[] n]; done. Qed.

Lemma after_load_legacy d : legacy d = true -> after_load d = saved (loaded d) d.
Proof. destruct d as [[] n]; done. Qed.

Lemma loaded_legacy jobs cfg n :
  loaded {| content := LegacyFile jobs cfg; writes := n |}
  = {| tasks := map migrate jobs; config := Host.nullish cfg DEFAULT_CONF |}.
Proof. reflexivity. Qed.

Lemma loaded_saved data d : loaded (saved data d) = data.
Proof. by destruct data. Qed.

Lemma legacy_saved data d : legacy (saved data d) = false.
Proof. reflexivity. Qed.

Lemma loaded_after_load d : loaded (after_load d) = loaded d.
Proof. destruct d as [[] n]; reflexivity. Qed.

Lemma legacy_after_load d : legacy (after_load d) = false.
Proof. destruct d as [[] n]; reflexivity. Qed.

Lemma after_load_idem d : after_load (after_load d) = after_load d.
Proof. apply after_load_canonical, legacy_after_load. Qed.

(** C4. Loading a legacy file ([jobs[]]) maps the four legacy state names
    to the canonical ones, carries [next_attempt_at] over as [next_run_at],
    and writes the migrated snapshot at once (one write): the file left
    behind is the canonical [{tasks, config}], and loading it again returns
    the same snapshot without writing. *)
Theorem C4_legacy_load_migrates (jobs : list Job.t) (cfg : option Config.t)
    (n : nat) :
  let d := {| content := LegacyFile jobs cfg; writes := n |} in
  let migrated := {| tasks := map migrate jobs;
                     config := Host.nullish cfg DEFAULT_CONF |} in
  migrate_state (Some "pending") = "waiting" /\
  migrate_state (Some "processing") = "running" /\
  migrate_state (Some "completed") = "done" /\
  migrate_state (Some "dead") = "failed" /\
  (forall i j, jobs !! i = Some j ->
     exists t, tasks migrated !! i = Some t /\
       Task.state t = migrate_state (Job.state j) /\
       Task.next_run_at t = Host.str_or_null (Job.next_attempt_at j) /\
       (forall s, Job.next_attempt_at j = Some s -> s <> "" ->
                  Task.next_run_at t = Some s)) /\
  loadData d
  = (Returned migrated,
     {| content := TasksFile (tasks migrated) (Some (config migrated));
        writes := S n |}) /\
  loadData (after_load d) = (Returned migrated, after_load d).
Proof.
  cbn zeta. split_and!; try reflexivity.
  intros i j Hj. exists (migrate j). split.
  { cbn. by rewrite list_lookup_fmap, Hj. }
  split_and!; try reflexivity. intros s Hs Hne. cbn. rewrite Hs. cbn.
  destruct (String.eqb_spec s ""); congruence.
Qed.

(** The four legacy names, and a name that is not one of them. *)
Example legacy_states_migrated :
  map Task.state
      (tasks (loaded {| content :=
                          LegacyFile [Sample.job "1" "pending";
                                      Sample.job "2" "processing";
                                      Sample.job "3" "completed";
                                      Sample.job "4" "dead";
                                      Sample.job "5" "paused"] None;
                        writes := 0 |}))
  = ["waiting"; "running"; "done"; "failed"; "paused"].
Proof. reflexivity. Qed.

(** C7. On a file already in canonical form (a [tasks] array and a
    [config] object), [loadData] returns the structure without writing, and
    [saveData] of what it returned writes that very structure back: the
    content of the file after [save(load())] is the content read. *)
Theorem C7_save_load_noop (ts : list Task.t) (cfg : Config.t) (n : nat) :
  let d := {| content := TasksFile ts (Some cfg); writes := n |} in
  loadData d = (Returned {| tasks := ts; config := cfg |}, d) /\
  (loadData ≫= saveData) d
  = (Returned tt, {| content := content d; writes := S n |}).
Proof. split; reflexivity. Qed.

(** Without a [config] object the round trip is not the identity: the
    default configuration is written into the file. *)
Lemma save_load_fills_config ts n :
  (loadData ≫= saveData) {| content := TasksFile ts None; writes := n |}
  = (Returned tt,
     {| content := TasksFile ts (Some DEFAULT_CONF); writes := S n |}).
Proof. reflexivity. Qed.

(** ** Lookups by id *)

Lemma find_id_None (id : string) (ts : list Task.t) :
  id ∉ ids ts -> list_find (fun t => Task.id t = id) ts = None.
Proof.
  intros Hid. apply list_find_None, Forall_forall. intros t Ht Heq.
  apply Hid. unfold ids. rewrite <- Heq. by apply list_elem_of_fmap_2.
Qed.

Lemma find_id_None_inv (id : string) (ts : list Task.t) :
  list_find (fun t => Task.id t = id) ts = None -> id ∉ ids ts.
Proof.
  intros Hnone Hin. apply list_find_None in Hnone.
  rewrite Forall_forall in Hnone.
  apply list_elem_of_fmap in Hin as (t & -> & Ht). by eapply Hnone.
Qed.

(** C10 as stated fails on a data file in the legacy schema: for an id
    that is not stored, [markDone] and [markFailed] change no task, and
    yet the file is written, by the migration of [loadData]. *)
Lemma C10_counterexample :
  ("nope" ∉ ids (tasks (loaded Demo.legacy_file))) /\
  (let r := markDone "nope" Sample.clock Demo.legacy_file in
   r.1 = Returned tt /\ writes r.2 = 1%nat /\
   content r.2
   = TasksFile [migrate (Sample.job "j" "completed")] (Some DEFAULT_CONF)) /\
  (let r := markFailed PoolScript "nope" 0 3 1 "Exit 1" None
              Sample.clock Sample.clock Demo.legacy_file in
   r.1 = Returned tt /\ writes r.2 = 1%nat /\
   content r.2
   = TasksFile [migrate (Sample.job "j" "completed")] (Some DEFAULT_CONF)).
Proof.
  split; [|split]; [|vm_compute; repeat split..].
  intros Hin. vm_compute in Hin. apply list_elem_of_singleton in Hin.
  discriminate Hin.
Qed.

(** C10, amended. For an id no stored task carries, [markDone] and
    [markFailed] (of either script) return normally without calling
    [saveData]: the disk is the one [loadData] left, which is the
    original disk, unwritten,
    unless the file was in the legacy schema (then [loadData] has written
    its migration); either way it loads to the same snapshot. *)
Theorem C10_unknown_id_is_noop (d : Disk) (id : string) :
  id ∉ ids (tasks (loaded d)) ->
  (forall clock, markDone id clock d = (Returned tt, after_load d)) /\
  (forall v attempts maxRetries code err base dateNow clock,
     markFailed v id attempts maxRetries code err base dateNow clock d
     = (Returned tt, after_load d)) /\
  (legacy d = false -> after_load d = d) /\
  (legacy d = true -> after_load d = saved (loaded d) d) /\
  loaded (after_load d) = loaded d.
Proof.
  intros Hid. split_and!.
  - intros clock. unfold markDone. rewrite bind_loadData.
    by rewrite find_id_None.
  - intros. unfold markFailed. rewrite bind_loadData.
    by rewrite find_id_None.
  - apply after_load_canonical.
  - apply after_load_legacy.
  - apply loaded_after_load.
Qed.

(** ** Claiming from an idle store *)

Lemma candidate_spec now ts i t :
  (i, t) ∈ filter (fun it : nat * Task.t => eligible now it.2) (imap pair ts)
  <-> ts !! i = Some t /\ eligible now t = true.
Proof.
  rewrite list_elem_of_filter, elem_of_lookup_imap. cbn. split.
  - intros [He (j & u & [= -> ->] & Hu)]. split; [done|].
    by apply Is_true_true.
  - intros [Hi He]. split; [by apply Is_true_true|]. by exists i, t.
Qed.

Lemma idle_available now ts : idle now ts -> available now ts = [].
Proof.
  intros Hidle. unfold available.
  destruct (filter _ _) as [|[i t] l] eqn:Hf; [done|].
  assert (Hin : (i, t) ∈ filter (fun it => eligible now it.2) (imap pair ts))
    by (rewrite Hf; left).
  apply candidate_spec in Hin as [Hi He].
  unfold idle in Hidle. rewrite Forall_forall in Hidle.
  rewrite (Hidle t) in He; [done|]. by eapply list_elem_of_lookup_2.
Qed.

Lemma claimTask_idle d c1 c2 :
  idle (timestamp c1) (tasks (loaded d)) ->
  claimTask c1 c2 d = (Returned None, after_load d).
Proof.
  intros Hidle. unfold claimTask. rewrite bind_loadData.
  by rewrite idle_available.
Qed.

Lemma claim_repeatedly_idle clocks d :
  Forall (fun c => idle (timestamp c.1) (tasks (loaded d))) clocks ->
  claim_repeatedly clocks (after_load d)
  = (Returned (replicate (length clocks) None), after_load d).
Proof.
  induction 1 as [|[c1 c2] rest Hc Hrest IH]; [done|].
  cbn [claim_repeatedly length replicate].
  erewrite bind_returned; last first.
  { apply claimTask_idle. by rewrite loaded_after_load. }
  rewrite after_load_idem.
  erewrite bind_returned; [|exact IH]. done.
Qed.

(** C6 as stated fails twice. On a data file in the legacy schema a claim
    that finds nothing to do still persists the snapshot: [loadData]
    rewrites the file in the canonical schema. And a call that returned
    [null] can be followed by one that returns a task: a retry that is
    not yet due at the first call is due at the second. *)
Lemma C6_counterexample :
  (idle (timestamp Sample.clock) (tasks (loaded Demo.legacy_file)) /\
   (claimTask Sample.clock Sample.clock Demo.legacy_file).1 = Returned None /\
   writes (claimTask Sample.clock Sample.clock Demo.legacy_file).2 = 1%nat /\
   content (claimTask Sample.clock Sample.clock Demo.legacy_file).2
   = TasksFile [migrate (Sample.job "j" "completed")] (Some DEFAULT_CONF)) /\
  (let d := Sample.store [Demo.retrying] in
   idle (timestamp Sample.clock) (tasks (loaded d)) /\
   (claim_repeatedly [(Sample.clock, Sample.clock);
                      (Sample.clock + 8000, Sample.clock + 8000)] d).1
   = Returned [None;
               Some (Task.with_updated_at
                       (Some (timestamp (Sample.clock + 8000)))
                       (Task.with_state "running" Demo.retrying))]).
Proof.
  split; split_and!; try (vm_compute; reflexivity);
    repeat constructor.
Qed.

(** C6, amended. When no task of the snapshot is eligible at the time
    of the call (in particular when the task list is empty), the snapshot
    is not changed: [claimTask] returns
    [null] and does not call [saveData]: the disk is the one [loadData]
    left, unwritten unless the file was in the legacy schema, and loads to
    the same snapshot. Every further call made while no task is eligible
    returns [null] again and leaves that disk as it is. *)
Theorem C6_claim_on_idle_store (d : Disk) (c1 c2 : Z) (later : list (Z * Z)) :
  idle (timestamp c1) (tasks (loaded d)) ->
  Forall (fun c => idle (timestamp c.1) (tasks (loaded d))) later ->
  claimTask c1 c2 d = (Returned None, after_load d) /\
  (legacy d = false -> after_load d = d) /\
  (legacy d = true -> after_load d = saved (loaded d) d) /\
  loaded (after_load d) = loaded d /\
  claim_repeatedly ((c1, c2) :: later) d
  = (Returned (replicate (S (length later)) None), after_load d).
Proof.
  intros Hnow Hlater. split_and!.
  - by apply claimTask_idle.
  - apply after_load_canonical.
  - apply after_load_legacy.
  - apply loaded_after_load.
  - cbn [claim_repeatedly replicate].
    erewrite bind_returned; [|by apply claimTask_idle].
    erewrite bind_returned; [|by apply claim_repeatedly_idle]. done.
Qed.

(** An empty task list is idle at every time. *)
Lemma empty_store_idle now : idle now [].
Proof. constructor. Qed.

(** ** Dead-task requeue *)

(** C5. [dead retry <id>] on an id that a task in state [failed] carries
    resets the first such task to [state = waiting], [attempts = 0],
    [next_run_at = null] (refreshing [updated_at]) and saves the snapshot
    with that one record changed; when no task with that id is in state
    [failed] (it is [done], [waiting], or there is none) the process exits
    with code 1 and [saveData] is not called. *)
Theorem C5_dead_retry (d : Disk) (id : string) (clock : Z) :
  let ts := tasks (loaded d) in
  ((exists t, t ∈ ts /\ Task.id t = id /\ Task.state t = "failed") ->
   exists i t,
     ts !! i = Some t /\ Task.id t = id /\ Task.state t = "failed" /\
     Task.state (requeued clock t) = "waiting" /\
     Task.attempts (requeued clock t) = 0%N /\
     Task.next_run_at (requeued clock t) = None /\
     deadRetry id clock d
     = (Returned tt,
        saved (with_task i (requeued clock t) (loaded d)) (after_load d))) /\
  ((forall t, t ∈ ts -> Task.id t = id -> Task.state t <> "failed") ->
   deadRetry id clock d = (Exited 1, after_load d) /\
   (legacy d = false -> after_load d = d) /\
   (legacy d = true -> after_load d = saved (loaded d) d) /\
   loaded (after_load d) = loaded d).
Proof.
  cbn zeta. split.
  - intros (t0 & Hin & Hid & Hst).
    destruct (list_find_elem_of
                (fun t => Task.id t = id /\ Task.state t = "failed")
                (tasks (loaded d)) t0 Hin (conj Hid Hst)) as [[i t] Hfind].
    pose proof Hfind as Hspec.
    apply list_find_Some in Hspec as (Hi & [Hid' Hst'] & _).
    exists i, t. split_and!; try done.
    unfold deadRetry. rewrite bind_loadData, Hfind. reflexivity.
  - intros Hnone. split_and!.
    + unfold deadRetry. rewrite bind_loadData.
      replace (list_find _ _) with (@None (nat * Task.t)); [done|].
      symmetry. apply list_find_None, Forall_forall.
      intros t Ht [Hid Hst]. by eapply Hnone.
    + apply after_load_canonical.
    + apply after_load_legacy.
    + apply loaded_after_load.
Qed.

(** ** Adding *)

Lemma ids_insert_same (ts : list Task.t) k old entry :
  ts !! k = Some old -> Task.id entry = Task.id old ->
  ids (<[k := entry]> ts) = ids ts.
Proof.
  intros Hk Hid. unfold ids. rewrite list_fmap_insert, Hid.
  apply list_insert_id. by rewrite list_lookup_fmap, Hk.
Qed.

(** What a valid [add] does, by whether the id is already stored. *)
Lemma addTaskObject_valid p uuid clock d :
  Host.truthy_str (Payload.command p) = true ->
  let id := Host.str_or (Payload.id p) uuid in
  let entry := new_entry p (loaded d) id (timestamp clock) in
  addTaskObject p uuid clock d =
  match list_find (fun t => Task.id t = id) (tasks (loaded d)) with
  | Some (k, _) =>
      (Returned id, saved (with_task k entry (loaded d)) (after_load d))
  | None =>
      (Returned id,
       saved {| tasks := tasks (loaded d) ++ [entry]; config := config (loaded d) |}
             (after_load d))
  end.
Proof.
  intros Hcmd. cbn zeta. unfold addTaskObject. rewrite Hcmd. cbn [negb].
  rewrite bind_loadData. by destruct (list_find _ _) as [[k old]|].
Qed.

Lemma addTaskObject_invalid p uuid clock d :
  Host.truthy_str (Payload.command p) = false ->
  addTaskObject p uuid clock d = (Thrown MissingCommand, d).
Proof. intros Hcmd. unfold addTaskObject. by rewrite Hcmd. Qed.


(** ** The order on strings and the stable sort *)

Lemma String_compare_refl (a : string) : String.compare a a = Eq.
Proof.
  induction a as [|c a IH]; [done|]. cbn.
  unfold Ascii.compare. by rewrite N.compare_refl.
Qed.

Lemma String_compare_lt_trans (a b c : string) :
  String.compare a b = Lt -> String.compare b c = Lt -> String.compare a c = Lt.
Proof.
  revert b c. induction a as [|x a IH]; intros [|y b] [|z c]; cbn; try done.
  destruct (Ascii.compare x y) eqn:Hxy; try done.
  - apply Ascii.compare_eq_iff in Hxy as ->.
    destruct (Ascii.compare y z); try done. apply IH.
  - intros _. destruct (Ascii.compare y z) eqn:Hyz; try done.
    + apply Ascii.compare_eq_iff in Hyz as <-. by rewrite Hxy.
    + intros _. unfold Ascii.compare in *.
      rewrite N.compare_lt_iff in Hxy, Hyz.
      replace (_ ?= _)%N with Lt; [done|].
      symmetry. apply N.compare_lt_iff. lia.
Qed.

Lemma localeCompare_refl a : Host.localeCompare a a = 0.
Proof. unfold Host.localeCompare. by rewrite String_compare_refl. Qed.

Lemma localeCompare_total a b :
  0 < Host.localeCompare a b -> Host.localeCompare b a < 0.
Proof.
  unfold Host.localeCompare. rewrite (String.compare_antisym b a).
  destruct (String.compare a b); cbn; lia.
Qed.

Lemma localeCompare_trans a b c :
  Host.localeCompare a b <= 0 -> Host.localeCompare b c <= 0 ->
  Host.localeCompare a c <= 0.
Proof.
  unfold Host.localeCompare.
  destruct (String.compare a b) eqn:Hab; [| |lia].
  - apply String.compare_eq_iff in Hab as ->. done.
  - destruct (String.compare b c) eqn:Hbc; [| |lia].
    + apply String.compare_eq_iff in Hbc as <-. by rewrite Hab.
    + by rewrite (String_compare_lt_trans a b c).
Qed.

Section SortFacts.
Context {A : Type} (cmp : A -> A -> Z).

Lemma insert_Permutation x l : Host.insert cmp x l ≡ₚ x :: l.
Proof.
  induction l as [|y l IH]; [done|]. cbn.
  destruct (0 <? cmp x y); [|done].
  rewrite IH. apply Permutation_swap.
Qed.

Lemma sort_Permutation l : Host.sort cmp l ≡ₚ l.
Proof.
  induction l as [|x l IH]; [done|].
  change (Host.sort cmp (x :: l)) with (Host.insert cmp x (Host.sort cmp l)).
  by rewrite insert_Permutation, IH.
Qed.

Hypothesis cmp_trans :
  forall a b c, cmp a b <= 0 -> cmp b c <= 0 -> cmp a c <= 0.
Hypothesis cmp_total : forall a b, 0 < cmp a b -> cmp b a < 0.

Lemma cmp_refl a : cmp a a <= 0.
Proof. destruct (Z_lt_le_dec 0 (cmp a a)) as [H|H]; [|done]. apply cmp_total in H. lia. Qed.

(** The element a sort of [l] puts first comes strictly before every
    element that precedes it in [l], and not after any other. *)
Lemma sort_head l x s :
  Host.sort cmp l = x :: s ->
  exists l1 l2, l = l1 ++ x :: l2 /\
    Forall (fun y => cmp x y < 0) l1 /\ Forall (fun y => cmp x y <= 0) l2.
Proof.
  revert x s. induction l as [|a l IH]; intros x s; [done|].
  change (Host.sort cmp (a :: l)) with (Host.insert cmp a (Host.sort cmp l)).
  destruct (Host.sort cmp l) as [|m s'] eqn:Hs.
  - assert (l = []) as ->.
    { apply Permutation_nil_r. by rewrite <- (sort_Permutation l), Hs. }
    cbn. intros ?; simplify_eq. by exists [], [].
  - destruct (IH m s' eq_refl) as (l1 & l2 & -> & H1 & H2).
    cbn. destruct (Z.ltb_spec 0 (cmp a m)) as [Hgt|Hle].
    + intros ?; simplify_eq. exists (a :: l1), l2. split_and!; [done| |done].
      constructor; [by apply cmp_total|done].
    + intros ?; simplify_eq. exists [], (l1 ++ m :: l2). split_and!; [done|done|].
      apply Forall_app. split; [|constructor].
      * eapply Forall_impl; [exact H1|]. intros y Hy. cbn in Hy.
        apply cmp_trans with m; lia.
      * done.
      * eapply Forall_impl; [exact H2|]. intros y Hy. cbn in Hy.
        by apply cmp_trans with m.
Qed.

Lemma insert_sorted x l :
  StronglySorted (fun a b => cmp a b <= 0) l ->
  StronglySorted (fun a b => cmp a b <= 0) (Host.insert cmp x l).
Proof.
  induction 1 as [|y l Hl IH Hy]; cbn; [repeat constructor|].
  destruct (Z.ltb_spec 0 (cmp x y)) as [Hgt|Hle].
  - constructor; [done|]. rewrite insert_Permutation.
    constructor; [|done]. apply cmp_total in Hgt. lia.
  - constructor; [by constructor|]. constructor; [done|].
    eapply Forall_impl; [exact Hy|]. intros z Hz. cbn in Hz.
    by apply cmp_trans with y.
Qed.

Lemma sort_sorted l : StronglySorted (fun a b => cmp a b <= 0) (Host.sort cmp l).
Proof.
  induction l as [|x l IH]; [constructor|].
  change (Host.sort cmp (x :: l)) with (Host.insert cmp x (Host.sort cmp l)).
  by apply insert_sorted.
Qed.

(** Stability: elements that compare equal keep their relative order. *)
Lemma insert_stable x a l :
  filter (fun y => cmp x y <= 0 /\ cmp y x <= 0) (Host.insert cmp a l)
  = filter (fun y => cmp x y <= 0 /\ cmp y x <= 0) (a :: l).
Proof.
  induction l as [|y l IH]; [done|]. cbn [Host.insert].
  destruct (Z.ltb_spec 0 (cmp a y)) as [Hgt|Hle]; [|done].
  rewrite filter_cons, IH, !filter_cons.
  repeat case_decide; try done.
  assert (cmp a y <= 0) by (apply cmp_trans with x; tauto). lia.
Qed.

Lemma sort_stable x l :
  filter (fun y => cmp x y <= 0 /\ cmp y x <= 0) (Host.sort cmp l)
  = filter (fun y => cmp x y <= 0 /\ cmp y x <= 0) l.
Proof.
  induction l as [|a l IH]; [done|].
  change (Host.sort cmp (a :: l)) with (Host.insert cmp a (Host.sort cmp l)).
  by rewrite insert_stable, !filter_cons, IH.
Qed.
End SortFacts.

(** ** The order of ISO strings *)

Lemma civil_from_days_era day :
  Host.civil_from_days day =
  let z := day + 719468 in
  let c := civil_of_doe (z mod 146097) in
  (c.1.1 + z / 146097 * 400, c.1.2, c.2).
Proof.
  unfold Host.civil_from_days, civil_of_doe. cbn zeta.
  replace (day + 719468 - (day + 719468) / 146097 * 146097)
    with ((day + 719468) mod 146097) by (rewrite Z.mod_eq; lia).
  cbn [fst snd]. f_equal. f_equal. lia.
Qed.

Lemma scan_spec n :
  (scan n).1.1 = Z.of_N n /\ (scan n).1.2 = civil_of_doe (Z.of_N n) /\
  ((scan n).2 = true -> forall k, 0 <= k < Z.of_N n ->
     date_ok (civil_of_doe k) = true /\
     (k < 146096 -> before (civil_of_doe k) (civil_of_doe (k + 1)) = true)).
Proof.
  induction n as [|n (IH1 & IH2 & IH3)] using N.peano_ind.
  { split_and!; [done|done|lia]. }
  unfold scan in *. rewrite N.iter_succ.
  destruct (N.iter n scan_step _) as [[k c] ok]. cbn [fst snd] in *.
  subst k c. cbn [scan_step fst snd]. split_and!; [lia|f_equal; lia|].
  intros [[Hok Hd]%andb_true_iff Hb]%andb_true_iff k Hk.
  destruct (decide (k = Z.of_N n)) as [->|]; [|apply IH3; [done|lia]].
  split; [done|]. intros Hlt.
  apply orb_true_iff in Hb as [Hb|Hb]; [lia|done].
Qed.

Lemma era_table : (scan 146097).2 = true.
Proof. vm_compute. reflexivity. Qed.

Lemma era_dates k :
  0 <= k < 146097 ->
  date_ok (civil_of_doe k) = true /\
  (k < 146096 -> before (civil_of_doe k) (civil_of_doe (k + 1)) = true).
Proof. intros Hk. by apply (proj2 (proj2 (scan_spec 146097)) era_table). Qed.

Lemma lex3_refl a : lex3 a a = Eq.
Proof. unfold lex3. by rewrite !Z.compare_refl. Qed.

Lemma lex3_antisym a b : lex3 a b = CompOpp (lex3 b a).
Proof.
  unfold lex3. rewrite (Z.compare_antisym b.1.1), (Z.compare_antisym b.1.2),
    (Z.compare_antisym b.2).
  by destruct (b.1.1 ?= a.1.1), (b.1.2 ?= a.1.2), (b.2 ?= a.2).
Qed.

Lemma lex3_Lt a b :
  lex3 a b = Lt <->
  a.1.1 < b.1.1 \/ (a.1.1 = b.1.1 /\ (a.1.2 < b.1.2 \/ (a.1.2 = b.1.2 /\ a.2 < b.2))).
Proof.
  unfold lex3.
  destruct (Z.compare_spec a.1.1 b.1.1), (Z.compare_spec a.1.2 b.1.2),
    (Z.compare_spec a.2 b.2); split; try done; lia.
Qed.

Lemma lex3_Lt_trans a b c : lex3 a b = Lt -> lex3 b c = Lt -> lex3 a c = Lt.
Proof. rewrite !lex3_Lt. lia. Qed.

Lemma before_Lt a b : before a b = true -> lex3 a b = Lt.
Proof. unfold before. by destruct (lex3 a b). Qed.

Lemma era_mono k1 k2 :
  0 <= k1 -> k1 < k2 -> k2 < 146097 ->
  lex3 (civil_of_doe k1) (civil_of_doe k2) = Lt.
Proof.
  intros H0 Hlt Hk2.
  assert (Hgen : forall n : nat, k1 + 1 + Z.of_nat n < 146097 ->
            lex3 (civil_of_doe k1) (civil_of_doe (k1 + 1 + Z.of_nat n)) = Lt).
  { induction n as [|n IH]; intros Hn.
    - rewrite Z.add_0_r. destruct (era_dates k1) as [_ Hb]; [lia|].
      apply before_Lt, Hb. lia.
    - apply lex3_Lt_trans with (civil_of_doe (k1 + 1 + Z.of_nat n)); [apply IH; lia|].
      destruct (era_dates (k1 + 1 + Z.of_nat n)) as [_ Hb]; [lia|].
      replace (k1 + 1 + Z.of_nat (S n)) with (k1 + 1 + Z.of_nat n + 1) by lia.
      apply before_Lt, Hb. lia. }
  replace k2 with (k1 + 1 + Z.of_nat (Z.to_nat (k2 - k1 - 1))) by lia.
  apply Hgen. lia.
Qed.

Lemma date_ok_spec y m d :
  date_ok (y, m, d) = true ->
  0 <= y <= 400 /\ 1 <= m <= 12 /\ 1 <= d <= 31 /\
  (y = 400 -> m <= 2) /\ (y = 0 -> 3 <= m).
Proof.
  unfold date_ok. rewrite !andb_true_iff.
  destruct (Z.eqb_spec y 400), (Z.eqb_spec y 0); lia.
Qed.

Lemma civil_mono d1 d2 :
  d1 < d2 -> lex3 (Host.civil_from_days d1) (Host.civil_from_days d2) = Lt.
Proof.
  intros Hlt. rewrite !civil_from_days_era. cbn zeta.
  set (z1 := d1 + 719468). set (z2 := d2 + 719468).
  assert (Hz : z1 < z2) by lia.
  pose proof (Z.mod_pos_bound z1 146097 ltac:(lia)) as Hm1.
  pose proof (Z.mod_pos_bound z2 146097 ltac:(lia)) as Hm2.
  pose proof (Z.div_mod z1 146097 ltac:(lia)) as He1.
  pose proof (Z.div_mod z2 146097 ltac:(lia)) as He2.
  destruct (era_dates _ Hm1) as [Hok1 _]. destruct (era_dates _ Hm2) as [Hok2 _].
  destruct (civil_of_doe (z1 mod 146097)) as [[y1 m1] dd1] eqn:Hc1.
  destruct (civil_of_doe (z2 mod 146097)) as [[y2 m2] dd2] eqn:Hc2.
  apply date_ok_spec in Hok1, Hok2. cbn [fst snd].
  destruct (Z.lt_ge_cases (z1 / 146097) (z2 / 146097)) as [Hera|Hera].
  - apply lex3_Lt. cbn [fst snd]. lia.
  - assert (z1 / 146097 = z2 / 146097) as Heq.
    { pose proof (Z.div_le_mono z1 z2 146097 ltac:(lia) ltac:(lia)). lia. }
    assert (Hmono := era_mono (z1 mod 146097) (z2 mod 146097)
                       ltac:(lia) ltac:(lia) ltac:(lia)).
    rewrite Hc1, Hc2 in Hmono. apply lex3_Lt in Hmono. cbn [fst snd] in Hmono.
    apply lex3_Lt. cbn [fst snd]. rewrite Heq. lia.
Qed.

Lemma civil_compare d1 d2 :
  lex3 (Host.civil_from_days d1) (Host.civil_from_days d2) = (d1 ?= d2).
Proof.
  destruct (Z.compare_spec d1 d2) as [->|Hlt|Hgt].
  - apply lex3_refl.
  - by apply civil_mono.
  - rewrite lex3_antisym, civil_mono; done.
Qed.

Lemma civil_fields day :
  1 <= (Host.civil_from_days day).1.2 <= 12 /\
  1 <= (Host.civil_from_days day).2 <= 31.
Proof.
  rewrite civil_from_days_era. cbn zeta. cbn [fst snd].
  pose proof (Z.mod_pos_bound (day + 719468) 146097 ltac:(lia)) as Hm.
  destruct (era_dates _ Hm) as [Hok _].
  destruct (civil_of_doe _) as [[y m] d]. apply date_ok_spec in Hok.
  cbn [fst snd]. lia.
Qed.

Lemma civil_year day :
  FIRST_DAY <= day <= LAST_DAY -> 0 <= (Host.civil_from_days day).1.1 <= 9999.
Proof.
  intros [Hlo Hhi]. split.
  - destruct (Z.eq_dec day FIRST_DAY) as [->|]; [by vm_compute|].
    pose proof (civil_mono FIRST_DAY day ltac:(lia)) as H.
    apply lex3_Lt in H. change (Host.civil_from_days FIRST_DAY) with (0, 1, 1) in H.
    cbn [fst snd] in H. lia.
  - destruct (Z.eq_dec day LAST_DAY) as [->|]; [by vm_compute|].
    pose proof (civil_mono day LAST_DAY ltac:(lia)) as H.
    apply lex3_Lt in H. change (Host.civil_from_days LAST_DAY) with (9999, 12, 31) in H.
    cbn [fst snd] in H. lia.
Qed.

Lemma compare_div_mod n a b :
  0 < n ->
  (a ?= b) = match a / n ?= b / n with Eq => a mod n ?= b mod n | c => c end.
Proof.
  intros Hn.
  pose proof (Z.div_mod a n ltac:(lia)). pose proof (Z.div_mod b n ltac:(lia)).
  pose proof (Z.mod_pos_bound a n Hn). pose proof (Z.mod_pos_bound b n Hn).
  destruct (Z.compare_spec (a / n) (b / n)), (Z.compare_spec (a mod n) (b mod n)),
    (Z.compare_spec a b); try done; nia.
Qed.

Lemma digit_compare a b :
  Ascii.compare (Host.digit a) (Host.digit b) = (a mod 10 ?= b mod 10).
Proof.
  unfold Ascii.compare, Host.digit.
  pose proof (Z.mod_pos_bound a 10 ltac:(lia)).
  pose proof (Z.mod_pos_bound b 10 ltac:(lia)).
  rewrite !N_ascii_embedding by lia.
  rewrite <- N2Z.inj_compare, !N2Z.inj_add, !Z2N.id by lia.
  apply Z.add_compare_mono_l.
Qed.

Lemma append_String s c r : (s +:+ String c "") +:+ r = s +:+ String c r.
Proof.
  induction s as [|x s IH]; [done|].
  change (String x ((s +:+ String c "") +:+ r) = String x (s +:+ String c r)).
  by f_equal.
Qed.

Lemma compare_digits w a b s1 s2 :
  0 <= a < 10 ^ Z.of_nat w -> 0 <= b < 10 ^ Z.of_nat w ->
  String.compare (Host.digits w a +:+ s1) (Host.digits w b +:+ s2)
  = match a ?= b with Eq => String.compare s1 s2 | c => c end.
Proof.
  revert a b s1 s2. induction w as [|w IH]; intros a b s1 s2 Ha Hb.
  - cbn in *. assert (a = 0) as -> by lia. assert (b = 0) as -> by lia. done.
  - cbn [Host.digits]. rewrite !append_String.
    rewrite Nat2Z.inj_succ, Z.pow_succ_r in Ha, Hb by lia.
    rewrite IH by (split; [apply Z.div_pos|apply Z.div_lt_upper_bound]; lia).
    rewrite (compare_div_mod 10 a b) by lia.
    destruct (a / 10 ?= b / 10); try done.
    cbn [String.compare]. rewrite digit_compare.
    by destruct (a mod 10 ?= b mod 10).
Qed.

Lemma compare_same_head c s1 s2 :
  String.compare (String c s1) (String c s2) = String.compare s1 s2.
Proof. cbn. unfold Ascii.compare. by rewrite N.compare_refl. Qed.

Lemma sep_append c r : String c "" +:+ r = String c r.
Proof. reflexivity. Qed.

Lemma lex3_then a b (rest : comparison) :
  match a.1.1 ?= b.1.1 with
  | Eq => match a.1.2 ?= b.1.2 with
          | Eq => match a.2 ?= b.2 with Eq => rest | c => c end
          | c => c
          end
  | c => c
  end = match lex3 a b with Eq => rest | c => c end.
Proof. unfold lex3. by destruct (a.1.1 ?= b.1.1), (a.1.2 ?= b.1.2), (a.2 ?= b.2). Qed.

Lemma time_of_day_compare a b :
  match a / 3600000 ?= b / 3600000 with
  | Eq => match a / 60000 mod 60 ?= b / 60000 mod 60 with
          | Eq => match a / 1000 mod 60 ?= b / 1000 mod 60 with
                  | Eq => a mod 1000 ?= b mod 1000
                  | c => c
                  end
          | c => c
          end
  | c => c
  end = (a ?= b).
Proof.
  rewrite (compare_div_mod 3600000 a b) by lia.
  rewrite (compare_div_mod 60000 (a mod 3600000) (b mod 3600000)) by lia.
  rewrite (compare_div_mod 1000 ((a mod 3600000) mod 60000)
             ((b mod 3600000) mod 60000)) by lia.
  assert (H1 : forall x, x mod 3600000 / 60000 = x / 60000 mod 60)
    by (intros x; Z.div_mod_to_equations; lia).
  assert (H2 : forall x, (x mod 3600000) mod 60000 / 1000 = x / 1000 mod 60)
    by (intros x; Z.div_mod_to_equations; lia).
  assert (H3 : forall x, ((x mod 3600000) mod 60000) mod 1000 = x mod 1000)
    by (intros x; Z.div_mod_to_equations; lia).
  by rewrite !H1, !H2, !H3.
Qed.

Lemma iso_string_four_digit tv :
  four_digit_year tv = true ->
  exists y m d,
    Host.civil_from_days (tv / Host.MS_PER_DAY) = (y, m, d) /\
    0 <= y < 10 ^ Z.of_nat 4 /\ 0 <= m < 10 ^ Z.of_nat 2 /\ 0 <= d < 10 ^ Z.of_nat 2 /\
    Host.iso_string tv =
    Host.digits 4 y +:+ "-" +:+ Host.digits 2 m +:+ "-" +:+ Host.digits 2 d +:+ "T" +:+
    Host.digits 2 (tv mod Host.MS_PER_DAY / 3600000) +:+ ":" +:+
    Host.digits 2 (tv mod Host.MS_PER_DAY / 60000 mod 60) +:+ ":" +:+
    Host.digits 2 (tv mod Host.MS_PER_DAY / 1000 mod 60) +:+ "." +:+
    Host.digits 3 (tv mod Host.MS_PER_DAY mod 1000) +:+ "Z".
Proof.
  unfold four_digit_year, FIRST_MS, LAST_MS. intros [Hlo Hhi]%andb_true_iff.
  apply Z.leb_le in Hlo, Hhi.
  assert (Hday : FIRST_DAY <= tv / Host.MS_PER_DAY <= LAST_DAY).
  { unfold FIRST_DAY, LAST_DAY, Host.MS_PER_DAY. Z.div_mod_to_equations. lia. }
  pose proof (civil_year _ Hday) as Hy.
  pose proof (civil_fields (tv / Host.MS_PER_DAY)) as [Hm Hd].
  unfold Host.iso_string. cbn zeta.
  destruct (Host.civil_from_days _) as [[y m] d]. cbn [fst snd] in *.
  exists y, m, d. split_and!; try done; try (cbn; lia).
  unfold Host.iso_year.
  by rewrite (proj2 (Z.leb_le 0 y)), (proj2 (Z.leb_le y 9999)) by lia.
Qed.

(** Within the years 0000 to 9999 the ISO texts of two time values compare
    (as strings) the way the time values do. *)
Lemma iso_string_compare tv1 tv2 :
  four_digit_year tv1 = true -> four_digit_year tv2 = true ->
  String.compare (Host.iso_string tv1) (Host.iso_string tv2) = (tv1 ?= tv2).
Proof.
  intros H1 H2.
  destruct (iso_string_four_digit tv1 H1) as (y1 & m1 & d1 & Hc1 & Hy1 & Hm1 & Hd1 & ->).
  destruct (iso_string_four_digit tv2 H2) as (y2 & m2 & d2 & Hc2 & Hy2 & Hm2 & Hd2 & ->).
  pose proof (Z.mod_pos_bound tv1 Host.MS_PER_DAY ltac:(done)) as Hr1.
  pose proof (Z.mod_pos_bound tv2 Host.MS_PER_DAY ltac:(done)) as Hr2.
  set (r1 := tv1 mod Host.MS_PER_DAY) in *. set (r2 := tv2 mod Host.MS_PER_DAY) in *.
  unfold Host.MS_PER_DAY in Hr1, Hr2.
  rewrite !sep_append.
  rewrite compare_digits, compare_same_head by done.
  rewrite compare_digits, compare_same_head by done.
  rewrite compare_digits, compare_same_head by done.
  rewrite compare_digits, compare_same_head by (cbn; Z.div_mod_to_equations; lia).
  rewrite compare_digits, compare_same_head by (cbn; Z.div_mod_to_equations; lia).
  rewrite compare_digits, compare_same_head by (cbn; Z.div_mod_to_equations; lia).
  rewrite compare_digits by (cbn; Z.div_mod_to_equations; lia).
  change (String.compare "Z" "Z") with Eq.
  replace (match r1 mod 1000 ?= r2 mod 1000 with Eq => Eq | Lt => Lt | Gt => Gt end)
    with (r1 mod 1000 ?= r2 mod 1000) by (by destruct (_ ?= _)).
  rewrite time_of_day_compare.
  pose proof (lex3_then (y1, m1, d1) (y2, m2, d2) (r1 ?= r2)) as Hl.
  cbn [fst snd] in Hl. rewrite Hl, <- Hc1, <- Hc2, civil_compare.
  symmetry. apply (compare_div_mod Host.MS_PER_DAY). done.
Qed.

Lemma iso_string_leb tv1 tv2 :
  four_digit_year tv1 = true -> four_digit_year tv2 = true ->
  String.leb (Host.iso_string tv1) (Host.iso_string tv2) = (tv1 <=? tv2).
Proof.
  intros H1 H2. unfold String.leb, Z.leb. by rewrite iso_string_compare.
Qed.

(** ** The candidates of a claim *)

Lemma StronglySorted_filter {A} (R : relation A) (P : A -> Prop)
    `{!forall x, Decision (P x)} (l : list A) :
  StronglySorted R l -> StronglySorted R (filter P l).
Proof.
  induction 1 as [|x l Hl IH Hx]; [constructor|].
  rewrite filter_cons. case_decide; [|done].
  constructor; [done|]. apply Forall_forall. intros y Hy.
  apply list_elem_of_filter in Hy as [_ Hy].
  rewrite Forall_forall in Hx. by apply Hx.
Qed.

Lemma imap_index_sorted {A} (l : list A) (g : nat -> A -> nat * A) (n : nat) :
  (forall k x, (g k x).1 = (n + k)%nat) ->
  StronglySorted (fun a b => (a.1 < b.1)%nat) (imap g l).
Proof.
  revert g n. induction l as [|x l IH]; intros g n Hg; [constructor|].
  rewrite imap_cons. constructor.
  - apply (IH _ (S n)). intros k y. cbn. rewrite Hg. lia.
  - apply Forall_forall. intros b Hb.
    apply elem_of_lookup_imap in Hb as (k & y & -> & _).
    cbn. rewrite !Hg. lia.
Qed.

Lemma indexed_sorted {A} (l : list A) :
  StronglySorted (fun a b : nat * A => (a.1 < b.1)%nat) (imap pair l).
Proof. apply (imap_index_sorted l pair 0). done. Qed.

Lemma by_created_at_trans (a b c : nat * Task.t) :
  by_created_at a.2 b.2 <= 0 -> by_created_at b.2 c.2 <= 0 ->
  by_created_at a.2 c.2 <= 0.
Proof. apply localeCompare_trans. Qed.

Lemma by_created_at_total (a b : nat * Task.t) :
  0 < by_created_at a.2 b.2 -> by_created_at b.2 a.2 < 0.
Proof. apply localeCompare_total. Qed.

(** The head of [available]: an eligible object of [data.tasks], not
    newer than any eligible one and strictly older than every eligible one
    stored before it. *)
Lemma available_head now ts i t rest :
  available now ts = (i, t) :: rest ->
  ts !! i = Some t /\ eligible now t = true /\
  forall j u, ts !! j = Some u -> eligible now u = true ->
    by_created_at t u <= 0 /\ ((j < i)%nat -> by_created_at t u < 0).
Proof.
  unfold available. intros Hs.
  destruct (sort_head _ by_created_at_trans by_created_at_total _ _ _ Hs)
    as (l1 & l2 & HL & H1 & H2).
  assert (Hin : forall j u, ts !! j = Some u /\ eligible now u = true <->
                            (j, u) ∈ l1 ++ (i, t) :: l2).
  { intros j u. rewrite <- HL. symmetry. apply candidate_spec. }
  assert (Hsorted : StronglySorted (fun a b : nat * Task.t => (a.1 < b.1)%nat)
                      (l1 ++ (i, t) :: l2)).
  { rewrite <- HL. apply StronglySorted_filter, indexed_sorted. }
  destruct (proj2 (Hin i t)) as [Hi He].
  { apply elem_of_app. right. left. }
  split_and!; [done|done|].
  intros j u Hj Hu.
  pose proof (proj1 (Hin j u) (conj Hj Hu)) as Hmem.
  apply elem_of_app in Hmem as [Hmem|Hmem].
  - rewrite Forall_forall in H1. specialize (H1 _ Hmem). cbn in H1. lia.
  - apply elem_of_cons in Hmem as [[= -> ->]|Hmem].
    + split; [|lia]. unfold by_created_at. by rewrite localeCompare_refl.
    + rewrite Forall_forall in H2. specialize (H2 _ Hmem). cbn in H2.
      split; [done|]. intros Hlt.
      apply StronglySorted_app in Hsorted as (_ & _ & Hsorted).
      apply StronglySorted_cons in Hsorted as [Hgt _].
      rewrite Forall_forall in Hgt. specialize (Hgt _ Hmem). cbn in Hgt. lia.
Qed.

Lemma available_nonempty now ts t :
  t ∈ ts -> eligible now t = true -> available now ts <> [].
Proof.
  intros Ht He Hnil.
  apply list_elem_of_lookup_1 in Ht as [i Hi].
  assert (Hin : (i, t) ∈ available now ts).
  { unfold available. rewrite sort_Permutation. by apply candidate_spec. }
  rewrite Hnil in Hin. by apply not_elem_of_nil in Hin.
Qed.

Lemma str_or_empty s : Host.str_or (Some s) "" = s.
Proof. cbn. by destruct (String.eqb_spec s "") as [->|]. Qed.

Lemma by_created_at_time t u tv tv' :
  created_on tv t -> created_on tv' u ->
  (by_created_at t u <= 0 <-> tv <= tv') /\ (by_created_at t u < 0 <-> tv < tv').
Proof.
  intros [Hy Ht] [Hy' Hu]. unfold by_created_at, Host.localeCompare.
  rewrite Ht, Hu, !str_or_empty, (iso_string_compare _ _ Hy Hy').
  destruct (Z.compare_spec tv tv'); split; split; lia.
Qed.

(** C3 as stated fails for timestamps outside the years 0000 to 9999:
    of two eligible tasks created at the start of the years -0002 and
    -0001, the claim takes the second, created a year after the first,
    because the strings are compared and not the times they stand for. *)
Lemma C3_counterexample :
  let older := -62230291200000 in
  let newer := -62198755200000 in
  let first := Sample.waiting "first" (Host.iso_string older) in
  let second := Sample.waiting "second" (Host.iso_string newer) in
  let d := Sample.store [first; second] in
  older < newer /\
  Host.iso_string older = "-000002-01-01T00:00:00.000Z" /\
  Host.iso_string newer = "-000001-01-01T00:00:00.000Z" /\
  eligible (timestamp Sample.clock) first = true /\
  eligible (timestamp Sample.clock) second = true /\
  (claimTask Sample.clock Sample.clock d).1
  = Returned (Some (Task.with_updated_at (Some (timestamp Sample.clock))
                      (Task.with_state "running" second))).
Proof. split_and!; vm_compute; reflexivity. Qed.

(** C3, amended. When some task is eligible at the time of the call and
    the [created_at] of every eligible task is a timestamp of
    [toISOString] for a year from 0000 to 9999, [claimTask] picks the
    eligible task created earliest, the one stored first among those
    created at the same time; it sets that task's [state] to [running] and
    its [updated_at] to the current time, saves the snapshot with this one
    record changed (one write), and returns the task. *)
Theorem C3_claim_takes_oldest_eligible (d : Disk) (c1 c2 : Z)
    (born : Task.t -> Z) :
  let ts := tasks (loaded d) in
  let now := timestamp c1 in
  (exists t, t ∈ ts /\ eligible now t = true) ->
  (forall u, u ∈ ts -> eligible now u = true -> created_on (born u) u) ->
  exists i t,
    ts !! i = Some t /\ eligible now t = true /\
    (forall j u, ts !! j = Some u -> eligible now u = true ->
       born t <= born u /\ ((j < i)%nat -> born t < born u)) /\
    let claimed :=
      Task.with_updated_at (Some (timestamp c2)) (Task.with_state "running" t) in
    claimTask c1 c2 d
    = (Returned (Some claimed),
       saved (with_task i claimed (loaded d)) (after_load d)) /\
    Task.state claimed = "running" /\
    Task.updated_at claimed = Some (timestamp c2) /\
    length (<[i := claimed]> ts) = length ts /\
    (forall j, j <> i -> <[i := claimed]> ts !! j = ts !! j).
Proof.
  cbn zeta. intros (t0 & Hin0 & He0) Hborn.
  destruct (available (timestamp c1) (tasks (loaded d))) as [|[i t] rest] eqn:Hav.
  { by destruct (available_nonempty _ _ _ Hin0 He0). }
  destruct (available_head _ _ _ _ _ Hav) as (Hi & He & Hmin).
  exists i, t. split_and!; try done.
  - intros j u Hj Hu. destruct (Hmin j u Hj Hu) as [Hle Hlt].
    pose proof (Hborn t (list_elem_of_lookup_2 _ _ _ Hi) He) as Ht.
    pose proof (Hborn u (list_elem_of_lookup_2 _ _ _ Hj) Hu) as Hu'.
    destruct (by_created_at_time t u _ _ Ht Hu') as [H1 H2].
    split; [by apply H1|]. intros Hji. by apply H2, Hlt.
  - unfold claimTask. rewrite bind_loadData, Hav. reflexivity.
  - apply length_insert.
  - intros j Hj. by apply list_lookup_insert_ne.
Qed.

(** ** Scoring a failure *)

(** What [markFailed] does once it has found the task. *)
Lemma markFailed_found v id attempts maxRetries code err base dateNow clock d i t :
  list_find (fun t => Task.id t = id) (tasks (loaded d)) = Some (i, t) ->
  markFailed v id attempts maxRetries code err base dateNow clock d =
  if exhausted v (attempts + 1) (Task.max_retries t) then
    (Returned tt,
     saved (with_task i (failed_record attempts code err clock t) (loaded d))
           (after_load d))
  else if Host.valid_time (retry_time base (config (loaded d)) attempts dateNow) then
    (Returned tt,
     saved (with_task i
              (retry_record attempts code err
                 (Host.iso_string
                    (retry_time base (config (loaded d)) attempts dateNow))
                 clock t)
              (loaded d))
           (after_load d))
  else (Thrown InvalidTimeValue, after_load d).
Proof.
  intros Hfind. unfold markFailed. rewrite bind_loadData, Hfind.
  cbn [Task.attempts Task.max_retries Task.with_attempts Task.with_last_error
       Task.with_exit_code].
  destruct (exhausted v _ _); [reflexivity|].
  unfold Date_toISOString, retry_time.
  destruct (Host.valid_time _); reflexivity.
Qed.

Lemma not_exhausted v (a m : N) : (a + 1 < m)%N -> exhausted v (a + 1) m = false.
Proof.
  intros Hlt. destruct v; cbn.
  - apply N.ltb_ge. lia.
  - apply N.leb_gt. lia.
Qed.

(** The worker-pool script scores a failure as the policy says: the task
    fails for good once [attempts + 1 >= max_retries], with the exit code
    and the error recorded and [next_run_at] left as it was; before that
    it goes back to [waiting] (whenever the retry time is a valid date). *)
Lemma markFailed_pool_policy id a mr code err base dateNow clock d i t :
  list_find (fun t => Task.id t = id) (tasks (loaded d)) = Some (i, t) ->
  let r := markFailed PoolScript id a mr code err base dateNow clock d in
  ((Task.max_retries t <= a + 1)%N ->
   exists t', r = (Returned tt, saved (with_task i t' (loaded d)) (after_load d)) /\
     Task.state t' = "failed" /\ Task.exit_code t' = Some code /\
     Task.last_error t' = Some err /\ Task.next_run_at t' = Task.next_run_at t) /\
  ((a + 1 < Task.max_retries t)%N ->
   Host.valid_time (retry_time base (config (loaded d)) a dateNow) = true ->
   exists t', r = (Returned tt, saved (with_task i t' (loaded d)) (after_load d)) /\
     Task.state t' = "waiting").
Proof.
  intros Hfind. cbn zeta. rewrite (markFailed_found _ _ _ _ _ _ _ _ _ _ _ _ Hfind).
  split.
  - intros Hge. cbn [exhausted]. rewrite (proj2 (N.leb_le _ _) Hge).
    eexists. split; [reflexivity|]. done.
  - intros Hlt Hvalid. rewrite not_exhausted, Hvalid by done.
    eexists. split; [reflexivity|]. done.
Qed.

(** [taskflow.js] tests [t.attempts > t.max_retries]: at
    [attempts + 1 = max_retries] the task is rescheduled, not failed. *)
Lemma markFailed_taskflow_at_limit id a mr code err base dateNow clock d i t :
  list_find (fun t => Task.id t = id) (tasks (loaded d)) = Some (i, t) ->
  (a + 1)%N = Task.max_retries t ->
  Host.valid_time (retry_time base (config (loaded d)) a dateNow) = true ->
  exists t', markFailed TaskflowJs id a mr code err base dateNow clock d
             = (Returned tt, saved (with_task i t' (loaded d)) (after_load d)) /\
    Task.state t' = "waiting" /\
    Task.next_run_at t'
    = Some (Host.iso_string (retry_time base (config (loaded d)) a dateNow)).
Proof.
  intros Hfind Heq Hvalid.
  rewrite (markFailed_found _ _ _ _ _ _ _ _ _ _ _ _ Hfind), Hvalid.
  cbn [exhausted]. rewrite <- Heq, N.ltb_irrefl.
  eexists. split; [reflexivity|]. done.
Qed.

(** C1. The input of the script's own [selfcheck] ([max_retries = 1], first
    failure, so [attempts + 1 >= max_retries]): [taskflow.js] puts the task
    back to [waiting] with a retry two seconds later, where the policy and
    the worker-pool script make it [failed]. *)
Theorem C1_taskflow_js_requeues_at_limit :
  let d := Sample.store [Sample.running "t1" 0 1] in
  markFailed TaskflowJs "t1" 0 1 1 "simulate" (Some 2) Sample.clock Sample.clock d
  = (Returned tt,
     {| content :=
          TasksFile
            [Task.mk "t1" "echo test" "waiting" 1 1 Sample.stamp Sample.stamp
                     (Some "2026-01-01T00:00:02.000Z") (Some "simulate") (Some 1)]
            (Some DEFAULT_CONF);
        writes := 1 |}) /\
  markFailed PoolScript "t1" 0 1 1 "simulate" (Some 2) Sample.clock Sample.clock d
  = (Returned tt,
     {| content :=
          TasksFile
            [Task.mk "t1" "echo test" "failed" 1 1 Sample.stamp Sample.stamp
                     None (Some "simulate") (Some 1)]
            (Some DEFAULT_CONF);
        writes := 1 |}).
Proof. split; vm_compute; reflexivity. Qed.

(** The check built into [taskflow.js] reports failure on a fresh store;
    the same check in the worker-pool script passes. *)
Lemma selfcheck_outcomes :
  (selfcheck TaskflowJs "u" Sample.clock Sample.clock Sample.clock Sample.fresh).1
  = Returned false /\
  (selfcheck PoolScript "u" Sample.clock Sample.clock Sample.clock Sample.fresh).1
  = Returned true.
Proof. split; vm_compute; reflexivity. Qed.

(** C2 as stated fails in two ways. A base argument of 0 is falsy and
    gives way to the configured base: with [backoff_base = 3] in the store
    the first retry is scheduled [3^1 = 3] seconds ahead, not [0^1 = 0].
    And a delay that carries the retry time past the last valid date (here
    base [10^13], first retry) makes [toISOString] throw: nothing is
    scheduled and the store is left as it was. *)
Lemma C2_counterexample :
  let d := Sample.store_with Sample.base3 [Sample.running "t1" 0 5] in
  markFailed PoolScript "t1" 0 5 1 "Exit 1" (Some 0) Sample.clock Sample.clock d
  = (Returned tt,
     {| content :=
          TasksFile
            [Task.mk "t1" "echo test" "waiting" 1 5 Sample.stamp Sample.stamp
                     (Some "2026-01-01T00:00:03.000Z") (Some "Exit 1") (Some 1)]
            (Some Sample.base3);
        writes := 1 |}) /\
  Host.iso_string (Sample.clock + 0 ^ 1 * 1000) = "2026-01-01T00:00:00.000Z" /\
  markFailed PoolScript "t1" 0 5 1 "Exit 1" (Some 10000000000000)
             Sample.clock Sample.clock d
  = (Thrown InvalidTimeValue, d).
Proof. split_and!; vm_compute; reflexivity. Qed.

(** C2, amended. For a failure that is not the last one
    ([k = attempts + 1 < max_retries]), with [b] the base in force (the
    base argument when it is not 0, else the configured [backoff_base]
    when it is not 0, else 2) and [Date.now() + 1000 * b^k] a valid time
    value, [markFailed] of either script returns after saving the task with
    [next_run_at] the ISO text of [Date.now() + 1000 * b^k], that is a
    delay of [b^k] seconds, [state = waiting] and [attempts = k]. *)
Theorem C2_backoff_delay (v : script) (d : Disk) (id : string) (a mr : N)
    (code : Z) (err : string) (base : option Z) (dateNow clock : Z)
    (i : nat) (t : Task.t) :
  list_find (fun t => Task.id t = id) (tasks (loaded d)) = Some (i, t) ->
  (a + 1 < Task.max_retries t)%N ->
  let b := backoff_base base (config (loaded d)) in
  let delay := b ^ Z.of_N (a + 1) in
  Host.valid_time (dateNow + delay * 1000) = true ->
  (forall b0, base = Some b0 -> b0 <> 0 -> b = b0) /\
  (base = None \/ base = Some 0 ->
   b = Host.Z_or (Config.backoff_base (config (loaded d))) DEFAULT_BACKOFF_BASE) /\
  exists t',
    markFailed v id a mr code err base dateNow clock d
    = (Returned tt, saved (with_task i t' (loaded d)) (after_load d)) /\
    Task.next_run_at t' = Some (Host.iso_string (dateNow + delay * 1000)) /\
    Task.state t' = "waiting" /\
    Task.attempts t' = (a + 1)%N.
Proof.
  intros Hfind Hlt b delay Hvalid. split_and!.
  - intros b0 -> Hne. subst b. unfold backoff_base. cbn.
    by destruct (Z.eqb_spec b0 0).
  - intros [-> | ->]; reflexivity.
  - rewrite (markFailed_found _ _ _ _ _ _ _ _ _ _ _ _ Hfind).
    rewrite not_exhausted by done.
    unfold retry_time, Host.Math_pow. fold b. fold delay. rewrite Hvalid.
    eexists. split; [reflexivity|]. done.
Qed.

Lemma C2_backoff_delay_witness :
  let d := Sample.store [Sample.running "t1" 1 5] in
  exists t',
    markFailed TaskflowJs "t1" 1 5 1 "Exit 1" (Some 3) Sample.clock Sample.clock d
    = (Returned tt, saved (with_task 0 t' (loaded d)) (after_load d)) /\
    Task.next_run_at t' = Some (Host.iso_string (Sample.clock + 3 ^ 2 * 1000)) /\
    Task.state t' = "waiting" /\
    Task.attempts t' = 2%N.
Proof.
  apply (C2_backoff_delay TaskflowJs (Sample.store [Sample.running "t1" 1 5])
           "t1" 1 5 1 "Exit 1" (Some 3) Sample.clock Sample.clock 0
           (Sample.running "t1" 1 5)); reflexivity.
Defined.

(** ** The attempts counter *)

Lemma loaded_attempts d : map Task.attempts (tasks (loaded d)) = attempts_of d.
Proof.
  destruct d as [[| | |jobs cfg|ts cfg] n]; try reflexivity.
  rewrite loaded_legacy. unfold attempts_of. cbn [tasks content].
  by rewrite map_map.
Qed.

Lemma saved_attempts data d : attempts_of (saved data d) = map Task.attempts (tasks data).
Proof. reflexivity. Qed.

Lemma after_load_attempts d : attempts_of (after_load d) = attempts_of d.
Proof.
  destruct (legacy d) eqn:Hl.
  - by rewrite after_load_legacy, saved_attempts, loaded_attempts.
  - by rewrite after_load_canonical.
Qed.

Lemma with_task_attempts d d' i t' :
  attempts_of (saved (with_task i t' (loaded d)) d')
  = <[i := Task.attempts t']> (attempts_of d).
Proof.
  rewrite saved_attempts. cbn [with_task tasks].
  by rewrite list_fmap_insert, loaded_attempts.
Qed.

Lemma with_task_attempts_same d d' i t t' :
  tasks (loaded d) !! i = Some t -> Task.attempts t' = Task.attempts t ->
  attempts_of (saved (with_task i t' (loaded d)) d') = attempts_of d.
Proof.
  intros Hi Heq. rewrite with_task_attempts, Heq. apply list_insert_id.
  by rewrite <- loaded_attempts, list_lookup_fmap, Hi.
Qed.

(** C8 as stated fails on [add]: a payload naming the id of a stored task
    replaces the record, and the counter of task ["t1"] drops from 2 to 0
    without any requeue. (And a scoring that aborts on an invalid retry
    time, here with base [10^13], leaves the counter at 2.) *)
Lemma C8_counterexample :
  let d := Sample.store [Sample.running "t1" 2 5] in
  let r := addTaskObject (Sample.payload (Some "t1")) "u" Sample.clock d in
  r.1 = Returned "t1" /\
  ids (tasks (loaded d)) = ["t1"] /\
  ids (tasks (loaded r.2)) = ["t1"] /\
  attempts_of d = [2%N] /\
  attempts_of r.2 = [0%N] /\
  attempts_of
    (markFailed PoolScript "t1" 2 5 1 "Exit 1" (Some 10000000000000)
                Sample.clock Sample.clock d).2 = [2%N].
Proof. split_and!; vm_compute; reflexivity. Qed.

(** C8, amended. What each operation does to the [attempts] column of the
    store: [loadData], [claimTask] and [markDone] leave it as it is;
    [markFailed] called with an attempt count [a] of at most
    [Number.MAX_SAFE_INTEGER] sets the counter of the task it finds to
    [a + 1] (one more than the task's count when [a] is that count)
    whenever the retries are exhausted or the retry time is a valid date,
    and it returns then; the requeue resets the counter of the failed task
    it finds to 0; and [add] either appends a record or, for an id already
    stored, overwrites the counter with the payload's [attempts] (0 when
    absent). *)
Theorem C8_attempts_by_operation (d : Disk) :
  (map Task.attempts (tasks (loaded d)) = attempts_of d /\
   attempts_of (after_load d) = attempts_of d) /\
  (forall c1 c2, attempts_of (claimTask c1 c2 d).2 = attempts_of d) /\
  (forall id c, attempts_of (markDone id c d).2 = attempts_of d) /\
  (forall v id a mr code err base dateNow clock,
     (a <= Host.MAX_SAFE_INTEGER)%N ->
     let r := markFailed v id a mr code err base dateNow clock d in
     match list_find (fun t => Task.id t = id) (tasks (loaded d)) with
     | Some (i, t) =>
         exhausted v (a + 1) (Task.max_retries t)
         || Host.valid_time (retry_time base (config (loaded d)) a dateNow)
         = true ->
         r.1 = Returned tt /\
         attempts_of r.2 = <[i := (a + 1)%N]> (attempts_of d) /\
         (a = Task.attempts t ->
          attempts_of d !! i = Some a /\ attempts_of r.2 !! i = Some (a + 1)%N)
     | None => r.1 = Returned tt /\ attempts_of r.2 = attempts_of d
     end) /\
  (forall id c,
     match list_find (fun t => Task.id t = id /\ Task.state t = "failed")
                     (tasks (loaded d)) with
     | Some (i, _) =>
         attempts_of (deadRetry id c d).2 = <[i := 0%N]> (attempts_of d)
     | None => attempts_of (deadRetry id c d).2 = attempts_of d
     end) /\
  (forall p uuid c,
     let r := addTaskObject p uuid c d in
     match r.1 with
     | Returned id =>
         match list_find (fun t => Task.id t = id) (tasks (loaded d)) with
         | Some (k, _) =>
             attempts_of r.2
             = <[k := Host.N_or (Payload.attempts p) 0%N]> (attempts_of d)
         | None =>
             attempts_of r.2
             = attempts_of d ++ [Host.N_or (Payload.attempts p) 0%N]
         end
     | _ => r.2 = d
     end).
Proof.
  split_and!.
  - apply loaded_attempts.
  - apply after_load_attempts.
  - intros c1 c2. unfold claimTask. rewrite bind_loadData.
    destruct (available _ _) as [|[i t] rest] eqn:Hav.
    + apply after_load_attempts.
    + apply available_head in Hav as (Hi & _ & _).
      rewrite bind_saveData. unfold mret, Store_ret. cbn [snd].
      by eapply (with_task_attempts_same d).
  - intros id c. unfold markDone. rewrite bind_loadData.
    destruct (list_find _ _) as [[i t]|] eqn:Hfind.
    + apply list_find_Some in Hfind as (Hi & _ & _).
      rewrite saveData_returns. cbn [snd].
      by eapply (with_task_attempts_same d).
    + apply after_load_attempts.
  - intros v id a mr code err base dateNow clock _. cbn zeta.
    destruct (list_find _ _) as [[i t]|] eqn:Hfind.
    + rewrite (markFailed_found _ _ _ _ _ _ _ _ _ _ _ _ Hfind).
      apply list_find_Some in Hfind as (Hi & _ & _).
      assert (Hcol : forall x, a = Task.attempts t ->
                attempts_of d !! i = Some a /\
                <[i := x]> (attempts_of d) !! i = Some x).
      { intros x ->. rewrite <- loaded_attempts, list_lookup_fmap, Hi.
        split; [done|]. apply list_lookup_insert_eq.
        rewrite length_fmap. by eapply lookup_lt_Some. }
      destruct (exhausted v _ _); cbn [orb fst snd].
      * intros _. split_and!; [done|apply with_task_attempts|].
        intros Ha. rewrite with_task_attempts. by apply Hcol.
      * destruct (Host.valid_time _); cbn [fst snd]; [|done].
        intros _. split_and!; [done|apply with_task_attempts|].
        intros Ha. rewrite with_task_attempts. by apply Hcol.
    + unfold markFailed. rewrite bind_loadData, Hfind.
      split; [done|apply after_load_attempts].
  - intros id c. unfold deadRetry. rewrite bind_loadData.
    destruct (list_find _ _) as [[i t]|] eqn:Hfind.
    + rewrite saveData_returns. cbn [snd]. apply (with_task_attempts d).
    + apply after_load_attempts.
  - intros p uuid c. cbn zeta.
    destruct (Host.truthy_str (Payload.command p)) eqn:Hcmd;
      [|by rewrite addTaskObject_invalid].
    rewrite addTaskObject_valid by done.
    destruct (list_find _ _) as [[k old]|] eqn:Hfind; cbn [fst snd]; rewrite Hfind.
    + apply with_task_attempts.
    + rewrite saved_attempts. cbn [tasks].
      by rewrite map_app, loaded_attempts.
Qed.

(** ** Instances on sample stores *)

Lemma C3_claim_takes_oldest_eligible_witness :
  let d := Sample.store [Sample.waiting "a" "2026-01-02T00:00:00.000Z";
                         Sample.waiting "b" "2026-01-01T00:00:00.000Z";
                         Sample.waiting "c" "2026-01-01T00:00:00.000Z"] in
  let born := fun u => if (Task.id u =? "a")%string
                       then Sample.clock + 86400000 else Sample.clock in
  exists i t,
    tasks (loaded d) !! i = Some t /\
    eligible (timestamp Sample.clock) t = true /\
    (forall j u, tasks (loaded d) !! j = Some u ->
       eligible (timestamp Sample.clock) u = true ->
       born t <= born u /\ ((j < i)%nat -> born t < born u)) /\
    let claimed :=
      Task.with_updated_at (Some (timestamp Sample.clock))
        (Task.with_state "running" t) in
    claimTask Sample.clock Sample.clock d
    = (Returned (Some claimed),
       saved (with_task i claimed (loaded d)) (after_load d)) /\
    Task.state claimed = "running" /\
    Task.updated_at claimed = Some (timestamp Sample.clock) /\
    length (<[i := claimed]> (tasks (loaded d))) = length (tasks (loaded d)) /\
    (forall j, j <> i -> <[i := claimed]> (tasks (loaded d)) !! j
                         = tasks (loaded d) !! j).
Proof.
  apply (C3_claim_takes_oldest_eligible
           (Sample.store [Sample.waiting "a" "2026-01-02T00:00:00.000Z";
                          Sample.waiting "b" "2026-01-01T00:00:00.000Z";
                          Sample.waiting "c" "2026-01-01T00:00:00.000Z"])
           Sample.clock Sample.clock
           (fun u => if (Task.id u =? "a")%string
                     then Sample.clock + 86400000 else Sample.clock)).
  - exists (Sample.waiting "a" "2026-01-02T00:00:00.000Z").
    split; [left|reflexivity].
  - intros u Hu _. vm_compute in Hu.
    repeat (apply elem_of_cons in Hu as [->|Hu]; [split; vm_compute; reflexivity|]).
    by apply elem_of_nil in Hu.
Defined.

(** On that store the claim takes ["b"]: older than ["a"], and stored
    before ["c"], which is as old. *)
Example claim_takes_b :
  (claimTask Sample.clock Sample.clock
     (Sample.store [Sample.waiting "a" "2026-01-02T00:00:00.000Z";
                    Sample.waiting "b" "2026-01-01T00:00:00.000Z";
                    Sample.waiting "c" "2026-01-01T00:00:00.000Z"])).1
  = Returned (Some (Task.mk "b" "echo hi" "running" 0 3
                      (Some "2026-01-01T00:00:00.000Z")
                      (Some "2026-01-01T00:00:00.000Z") None None None)).
Proof. vm_compute. reflexivity. Qed.

Lemma C5_dead_retry_witness :
  let d := Sample.store [Sample.done "d"; Sample.failed "x"] in
  (exists i t,
     tasks (loaded d) !! i = Some t /\ Task.id t = "x" /\
     Task.state t = "failed" /\
     Task.state (requeued Sample.clock t) = "waiting" /\
     Task.attempts (requeued Sample.clock t) = 0%N /\
     Task.next_run_at (requeued Sample.clock t) = None /\
     deadRetry "x" Sample.clock d
     = (Returned tt,
        saved (with_task i (requeued Sample.clock t) (loaded d)) (after_load d))) /\
  deadRetry "d" Sample.clock d = (Exited 1, d).
Proof.
  split.
  - apply (C5_dead_retry (Sample.store [Sample.done "d"; Sample.failed "x"])
             "x" Sample.clock).
    exists (Sample.failed "x"). split; [right; left|done].
  - apply (C5_dead_retry (Sample.store [Sample.done "d"; Sample.failed "x"])
             "d" Sample.clock).
    intros t Ht Hid Hst.
    apply elem_of_cons in Ht as [->|Ht]; [discriminate Hst|].
    apply list_elem_of_singleton in Ht as ->. discriminate Hid.
Defined.

Lemma C6_claim_on_idle_store_witness :
  let d := Sample.store [Sample.running "t1" 0 3; Sample.done "t2"] in
  claim_repeatedly [(Sample.clock, Sample.clock);
                    (Sample.clock + 1000, Sample.clock + 1000)] d
  = (Returned [None; None], d).
Proof.
  apply (C6_claim_on_idle_store
           (Sample.store [Sample.running "t1" 0 3; Sample.done "t2"])
           Sample.clock Sample.clock
           [(Sample.clock + 1000, Sample.clock + 1000)]).
  - repeat constructor.
  - repeat constructor.
Defined.


Lemma C10_unknown_id_is_noop_witness :
  let d := Sample.store [Sample.running "t1" 0 3] in
  markDone "zz" Sample.clock d = (Returned tt, d) /\
  markFailed TaskflowJs "zz" 0 3 1 "Exit 1" (Some 2) Sample.clock Sample.clock d
  = (Returned tt, d).
Proof.
  assert (Hid : "zz" ∉ ids (tasks (loaded (Sample.store [Sample.running "t1" 0 3])))).
  { intros Hin. apply list_elem_of_singleton in Hin. discriminate Hin. }
  split.
  - apply (C10_unknown_id_is_noop _ "zz" Hid).
  - apply (C10_unknown_id_is_noop _ "zz" Hid).
Defined.

(** ** What the operations on stored tasks keep *)

Lemma kept_refl data : kept data data.
Proof. split_and!; [done|done|by exists 0%nat]. Qed.

Lemma kept_with_task data i t t' :
  tasks data !! i = Some t -> immutable_part t' = immutable_part t ->
  kept data (with_task i t' data).
Proof.
  intros Hi Heq. split_and!; [done| |].
  - cbn [with_task tasks]. rewrite list_fmap_insert, Heq.
    apply list_insert_id. by rewrite list_lookup_fmap, Hi.
  - exists i. intros j Hj. cbn [with_task tasks]. by apply list_lookup_insert_ne.
Qed.

Lemma kept_after_load d : kept (loaded d) (loaded (after_load d)).
Proof. rewrite loaded_after_load. apply kept_refl. Qed.

Lemma kept_saved d d' i t t' :
  tasks (loaded d) !! i = Some t -> immutable_part t' = immutable_part t ->
  kept (loaded d) (loaded (saved (with_task i t' (loaded d)) d')).
Proof. intros Hi Heq. rewrite loaded_saved. by eapply kept_with_task. Qed.

Lemma claimTask_found c1 c2 d i t rest :
  available (timestamp c1) (tasks (loaded d)) = (i, t) :: rest ->
  claimTask c1 c2 d
  = (Returned (Some (claimed c2 t)),
     saved (with_task i (claimed c2 t) (loaded d)) (after_load d)).
Proof. intros Hav. unfold claimTask. rewrite bind_loadData, Hav. reflexivity. Qed.

Lemma markDone_found id c d i t :
  list_find (fun t => Task.id t = id) (tasks (loaded d)) = Some (i, t) ->
  markDone id c d
  = (Returned tt, saved (with_task i (done_record c t) (loaded d)) (after_load d)).
Proof. intros Hfind. unfold markDone. rewrite bind_loadData, Hfind. reflexivity. Qed.

Lemma deadRetry_found id c d i t :
  list_find (fun t => Task.id t = id /\ Task.state t = "failed")
            (tasks (loaded d)) = Some (i, t) ->
  deadRetry id c d
  = (Returned tt, saved (with_task i (requeued c t) (loaded d)) (after_load d)).
Proof. intros Hfind. unfold deadRetry. rewrite bind_loadData, Hfind. reflexivity. Qed.

Lemma deadRetry_not_found id c d :
  list_find (fun t => Task.id t = id /\ Task.state t = "failed")
            (tasks (loaded d)) = None ->
  deadRetry id c d = (Exited 1, after_load d).
Proof. intros Hfind. unfold deadRetry. rewrite bind_loadData, Hfind. reflexivity. Qed.

(** X1. Claiming, completing, scoring a failure and requeueing never add,
    remove or reorder records, never touch the configuration, never change
    a record's [id], [command], [max_retries] or [created_at], and change
    at most one record. [claimTask] and [markDone] always return normally;
    [markFailed] returns or throws the [RangeError] of an invalid retry
    time; the requeue returns or exits with code 1. *)
Theorem X1_operations_keep_records (d : Disk) :
  (forall c1 c2,
     (exists r, (claimTask c1 c2 d).1 = Returned r) /\
     kept (loaded d) (loaded (claimTask c1 c2 d).2)) /\
  (forall id c,
     (markDone id c d).1 = Returned tt /\
     kept (loaded d) (loaded (markDone id c d).2)) /\
  (forall v id a mr code err base now c,
     let r := markFailed v id a mr code err base now c d in
     (r.1 = Returned tt \/ r.1 = Thrown InvalidTimeValue) /\
     kept (loaded d) (loaded r.2)) /\
  (forall id c,
     let r := deadRetry id c d in
     (r.1 = Returned tt \/ r.1 = Exited 1) /\
     kept (loaded d) (loaded r.2)).
Proof.
  split_and!.
  - intros c1 c2.
    destruct (available (timestamp c1) (tasks (loaded d))) as [|[i t] rest] eqn:Hav.
    + unfold claimTask. rewrite bind_loadData, Hav. cbn [fst snd].
      split; [by eexists|apply kept_after_load].
    + rewrite (claimTask_found _ _ _ _ _ _ Hav). cbn [fst snd].
      apply available_head in Hav as (Hi & _ & _).
      split; [by eexists|]. by eapply kept_saved.
  - intros id c.
    destruct (list_find (fun t => Task.id t = id) (tasks (loaded d)))
      as [[i t]|] eqn:Hfind.
    + rewrite (markDone_found _ _ _ _ _ Hfind). cbn [fst snd].
      apply list_find_Some in Hfind as (Hi & _ & _).
      split; [done|]. by eapply kept_saved.
    + unfold markDone. rewrite bind_loadData, Hfind. cbn [fst snd].
      split; [done|apply kept_after_load].
  - intros v id a mr code err base now c. cbn zeta.
    destruct (list_find (fun t => Task.id t = id) (tasks (loaded d)))
      as [[i t]|] eqn:Hfind.
    + rewrite (markFailed_found _ _ _ _ _ _ _ _ _ _ _ _ Hfind).
      apply list_find_Some in Hfind as (Hi & _ & _).
      destruct (exhausted v _ _); cbn [fst snd].
      { split; [by left|]. by eapply kept_saved. }
      destruct (Host.valid_time _); cbn [fst snd].
      { split; [by left|]. by eapply kept_saved. }
      split; [by right|apply kept_after_load].
    + unfold markFailed. rewrite bind_loadData, Hfind. cbn [fst snd].
      split; [by left|apply kept_after_load].
  - intros id c. cbn zeta.
    destruct (list_find (fun t => Task.id t = id /\ Task.state t = "failed")
                (tasks (loaded d))) as [[i t]|] eqn:Hfind.
    + rewrite (deadRetry_found _ _ _ _ _ Hfind). cbn [fst snd].
      apply list_find_Some in Hfind as (Hi & _ & _).
      split; [by left|]. by eapply kept_saved.
    + rewrite (deadRetry_not_found _ _ _ Hfind). cbn [fst snd].
      split; [by right|apply kept_after_load].
Qed.

(** ** Adding, then looking up and claiming *)

(** The snapshot a valid [add] leaves. *)
Lemma addTaskObject_tasks p uuid clock d :
  Host.truthy_str (Payload.command p) = true ->
  let id := Host.str_or (Payload.id p) uuid in
  let entry := new_entry p (loaded d) id (timestamp clock) in
  (addTaskObject p uuid clock d).1 = Returned id /\
  config (loaded (addTaskObject p uuid clock d).2) = config (loaded d) /\
  tasks (loaded (addTaskObject p uuid clock d).2)
  = match list_find (fun t => Task.id t = id) (tasks (loaded d)) with
    | Some (k, _) => <[k := entry]> (tasks (loaded d))
    | None => tasks (loaded d) ++ [entry]
    end.
Proof.
  intros Hcmd. cbn zeta. rewrite addTaskObject_valid by done.
  destruct (list_find _ _) as [[k old]|]; cbn [fst snd]; by rewrite loaded_saved.
Qed.

(** X2. A valid [add] can be looked up: it returns the payload's id (the
    generated one when the payload has none), and afterwards the first
    record with that id is the new entry. Every record with another id
    stays where it was, the configuration is unchanged, and the collection
    grows by one exactly when the id was not stored before. *)
Theorem X2_add_then_find (d : Disk) (p : Payload.t) (uuid : string) (clock : Z) :
  Host.truthy_str (Payload.command p) = true ->
  let id := Host.str_or (Payload.id p) uuid in
  let entry := new_entry p (loaded d) id (timestamp clock) in
  let r := addTaskObject p uuid clock d in
  r.1 = Returned id /\
  (exists k, list_find (fun t => Task.id t = id) (tasks (loaded r.2))
             = Some (k, entry)) /\
  (forall j t, tasks (loaded d) !! j = Some t -> Task.id t <> id ->
               tasks (loaded r.2) !! j = Some t) /\
  config (loaded r.2) = config (loaded d) /\
  length (tasks (loaded r.2))
  = (length (tasks (loaded d))
     + (if bool_decide (id ∈ ids (tasks (loaded d))) then 0 else 1))%nat.
Proof.
  intros Hcmd. cbn zeta.
  destruct (addTaskObject_tasks p uuid clock d Hcmd) as (Hret & Hcfg & Hts).
  set (id := Host.str_or (Payload.id p) uuid) in *.
  set (entry := new_entry p (loaded d) id (timestamp clock)) in *.
  rewrite Hts. split_and!; [done| | |done|].
  - destruct (list_find _ (tasks (loaded d))) as [[k old]|] eqn:Hfind.
    + apply list_find_Some in Hfind as (Hk & Hold & Hfirst).
      exists k. apply list_find_Some. split_and!.
      * apply list_lookup_insert_eq. by eapply lookup_lt_Some.
      * done.
      * intros j y Hj Hlt. rewrite list_lookup_insert_ne in Hj by lia.
        by eapply Hfirst.
    + apply list_find_None in Hfind. rewrite Forall_forall in Hfind.
      exists (length (tasks (loaded d))). apply list_find_Some. split_and!.
      * by rewrite lookup_app_r, Nat.sub_diag by lia.
      * done.
      * intros j y Hj Hlt. rewrite lookup_app_l in Hj by done.
        apply Hfind. by eapply list_elem_of_lookup_2.
  - intros j t Hj Hne.
    destruct (list_find _ (tasks (loaded d))) as [[k old]|] eqn:Hfind.
    + apply list_find_Some in Hfind as (Hk & Hold & _).
      rewrite list_lookup_insert_ne; [done|]. intros ->. congruence.
    + rewrite lookup_app_l; [done|]. by eapply lookup_lt_Some.
  - destruct (list_find _ (tasks (loaded d))) as [[k old]|] eqn:Hfind.
    + apply list_find_Some in Hfind as (Hk & Hold & _).
      rewrite length_insert, bool_decide_eq_true_2; [lia|].
      unfold ids. rewrite <- Hold. apply list_elem_of_fmap_2.
      by eapply list_elem_of_lookup_2.
    + apply find_id_None_inv in Hfind.
      rewrite length_app, bool_decide_eq_false_2 by done. done.
Qed.

Lemma X2_add_then_find_witness :
  let d := Sample.store [Sample.done "d"; Sample.failed "x"] in
  let r := addTaskObject (Sample.payload None) "u-1" Sample.clock d in
  r.1 = Returned "u-1" /\
  (exists k, list_find (fun t => Task.id t = "u-1") (tasks (loaded r.2))
             = Some (k, new_entry (Sample.payload None) (loaded d) "u-1"
                          (timestamp Sample.clock))) /\
  length (tasks (loaded r.2)) = 3%nat.
Proof.
  destruct (X2_add_then_find (Sample.store [Sample.done "d"; Sample.failed "x"])
              (Sample.payload None) "u-1" Sample.clock eq_refl)
    as (Hret & Hfind & _ & _ & Hlen).
  split_and!; [exact Hret|exact Hfind|exact Hlen].
Defined.

Lemma eligible_waiting now t : eligible now t = true -> Task.state t = "waiting".
Proof.
  unfold eligible. intros [Hs _]%andb_true_iff. by apply String.eqb_eq in Hs.
Qed.

Lemma claimed_not_eligible now c t : eligible now (claimed c t) = false.
Proof. reflexivity. Qed.

(** X3. On a store where nothing can be claimed, a task that is added in
    a claimable form (state [waiting] or none, no [next_run_at] or one that
    has passed) is what the next claim returns, now [running]. *)
Theorem X3_add_then_claim (d : Disk) (p : Payload.t) (uuid : string)
    (clock c1 c2 : Z) :
  Host.truthy_str (Payload.command p) = true ->
  let id := Host.str_or (Payload.id p) uuid in
  let entry := new_entry p (loaded d) id (timestamp clock) in
  idle (timestamp c1) (tasks (loaded d)) ->
  eligible (timestamp c1) entry = true ->
  (claimTask c1 c2 (addTaskObject p uuid clock d).2).1
  = Returned (Some (claimed c2 entry)).
Proof.
  intros Hcmd id entry Hidle Hel.
  destruct (addTaskObject_tasks p uuid clock d Hcmd) as (_ & _ & Hts).
  fold id entry in Hts.
  set (d1 := (addTaskObject p uuid clock d).2) in *.
  assert (Hin : entry ∈ tasks (loaded d1)).
  { rewrite Hts. destruct (list_find _ _) as [[k old]|] eqn:Hfind.
    - apply list_find_Some in Hfind as (Hk & _ & _).
      eapply list_elem_of_lookup_2, list_lookup_insert_eq. by eapply lookup_lt_Some.
    - apply elem_of_app. right. left. }
  destruct (available (timestamp c1) (tasks (loaded d1))) as [|[i t] rest] eqn:Hav.
  { by destruct (available_nonempty _ _ _ Hin Hel). }
  rewrite (claimTask_found _ _ _ _ _ _ Hav). cbn [fst].
  apply available_head in Hav as (Hi & He & _).
  assert (t = entry) as ->; [|done].
  unfold idle in Hidle. rewrite Forall_forall in Hidle.
  rewrite Hts in Hi. destruct (list_find _ _) as [[k old]|] eqn:Hfind.
  - destruct (decide (i = k)) as [->|Hne].
    + apply list_find_Some in Hfind as (Hk & _ & _).
      rewrite list_lookup_insert_eq in Hi by (by eapply lookup_lt_Some). congruence.
    + rewrite list_lookup_insert_ne in Hi by done.
      rewrite (Hidle t) in He; [done|]. by eapply list_elem_of_lookup_2.
  - apply lookup_app_Some in Hi as [Hi|[_ Hi]].
    + rewrite (Hidle t) in He; [done|]. by eapply list_elem_of_lookup_2.
    + apply list_lookup_singleton_Some in Hi as [_ <-]. done.
Qed.

Lemma X3_add_then_claim_witness :
  (claimTask Sample.clock Sample.clock
     (addTaskObject (Sample.payload None) "u-1" Sample.clock
        (Sample.store [Sample.done "d"; Sample.failed "x"])).2).1
  = Returned
      (Some (claimed Sample.clock
               (new_entry (Sample.payload None)
                  (loaded (Sample.store [Sample.done "d"; Sample.failed "x"]))
                  "u-1" (timestamp Sample.clock)))).
Proof.
  apply (X3_add_then_claim (Sample.store [Sample.done "d"; Sample.failed "x"])
           (Sample.payload None) "u-1" Sample.clock Sample.clock Sample.clock).
  - reflexivity.
  - repeat constructor.
  - reflexivity.
Defined.

(** ** Claims do not repeat *)

Lemma bind_thrown {A B} (m : Store A) (k : A -> Store B) d e d' :
  m d = (Thrown e, d') -> (m ≫= k) d = (Thrown e, d').
Proof. intros H. unfold mbind, Store_bind. by rewrite H. Qed.

Lemma bind_exited {A B} (m : Store A) (k : A -> Store B) d c d' :
  m d = (Exited c, d') -> (m ≫= k) d = (Exited c, d').
Proof. intros H. unfold mbind, Store_bind. by rewrite H. Qed.

Lemma claim_repeatedly_distinct clocks d rs d' :
  NoDup (ids (tasks (loaded d))) ->
  claim_repeatedly clocks d = (Returned rs, d') ->
  NoDup (ids (omap id rs)) /\
  forall t, Some t ∈ rs ->
    exists i t0, tasks (loaded d) !! i = Some t0 /\ Task.id t0 = Task.id t /\
                 Task.state t0 = "waiting".
Proof.
  revert d rs d'. induction clocks as [|[c1 c2] clocks IH]; intros d rs d' Hnd Hrun.
  { cbn in Hrun. injection Hrun as <- <-. split; [constructor|].
    intros t Ht. by apply elem_of_nil in Ht. }
  cbn [claim_repeatedly] in Hrun.
  destruct (available (timestamp c1) (tasks (loaded d))) as [|[i t] rest] eqn:Hav.
  - erewrite bind_returned in Hrun; last first.
    { unfold claimTask. rewrite bind_loadData, Hav. reflexivity. }
    destruct (claim_repeatedly clocks (after_load d)) as [[rs1|e|c] d1] eqn:Hrest;
      [|by erewrite bind_thrown in Hrun by exact Hrest
       |by erewrite bind_exited in Hrun by exact Hrest].
    erewrite bind_returned in Hrun by exact Hrest.
    injection Hrun as <- <-.
    rewrite <- (loaded_after_load d) in Hnd.
    destruct (IH _ _ _ Hnd Hrest) as [Hnd1 Hw1].
    change (omap id (None :: rs1)) with (omap id rs1). split; [done|].
    intros t Ht. apply elem_of_cons in Ht as [[=]|Ht].
    rewrite <- (loaded_after_load d). by apply Hw1.
  - erewrite bind_returned in Hrun by exact (claimTask_found _ c2 _ _ _ _ Hav).
    pose proof Hav as Hhead. apply available_head in Hhead as (Hi & He & _).
    set (d1 := saved (with_task i (claimed c2 t) (loaded d)) (after_load d)) in *.
    assert (Hts1 : tasks (loaded d1) = <[i := claimed c2 t]> (tasks (loaded d))).
    { unfold d1. by rewrite loaded_saved. }
    assert (Hids1 : ids (tasks (loaded d1)) = ids (tasks (loaded d))).
    { rewrite Hts1. by eapply ids_insert_same. }
    destruct (claim_repeatedly clocks d1) as [[rs1|e|c] d2] eqn:Hrest;
      [|by erewrite bind_thrown in Hrun by exact Hrest
       |by erewrite bind_exited in Hrun by exact Hrest].
    erewrite bind_returned in Hrun by exact Hrest.
    injection Hrun as <- <-.
    rewrite <- Hids1 in Hnd.
    destruct (IH _ _ _ Hnd Hrest) as [Hnd1 Hw1].
    assert (Hold : forall u, Some u ∈ rs1 ->
              exists j u0, tasks (loaded d) !! j = Some u0 /\
                Task.id u0 = Task.id u /\ Task.state u0 = "waiting" /\ j <> i).
    { intros u Hu. destruct (Hw1 u Hu) as (j & u0 & Hj & Hid & Hst).
      rewrite Hts1 in Hj. destruct (decide (j = i)) as [->|Hne].
      - rewrite list_lookup_insert_eq in Hj by (by eapply lookup_lt_Some).
        injection Hj as <-. discriminate Hst.
      - rewrite list_lookup_insert_ne in Hj by done. by exists j, u0. }
    split.
    + change (omap id (Some (claimed c2 t) :: rs1))
        with (claimed c2 t :: omap id rs1).
      unfold ids. rewrite fmap_cons. apply NoDup_cons. split; [|done].
      intros Hin. apply list_elem_of_fmap in Hin as (u & Hidu & Hu).
      apply list_elem_of_omap in Hu as (ou & Hou & Hsome). cbn in Hsome. subst ou.
      destruct (Hold u Hou) as (j & u0 & Hj & Hid & _ & Hne).
      apply Hne. rewrite Hids1 in Hnd.
      eapply (NoDup_lookup (ids (tasks (loaded d)))); [done| |].
      * unfold ids. rewrite list_lookup_fmap, Hj. cbn. by rewrite Hid.
      * unfold ids. rewrite list_lookup_fmap, Hi. cbn. by rewrite <- Hidu.
    + intros u Hu. apply elem_of_cons in Hu as [[= ->]|Hu].
      * exists i, t. split_and!; [done|done|by eapply eligible_waiting].
      * destruct (Hold u Hu) as (j & u0 & Hj & Hid & Hst & _). by exists j, u0.
Qed.

Lemma claimTask_returns c1 c2 d : exists r d', claimTask c1 c2 d = (Returned r, d').
Proof.
  destruct (available (timestamp c1) (tasks (loaded d))) as [|[i t] rest] eqn:Hav.
  - unfold claimTask. rewrite bind_loadData, Hav. by eexists _, _.
  - rewrite (claimTask_found _ c2 _ _ _ _ Hav). by eexists _, _.
Qed.

Lemma claim_repeatedly_returns clocks d :
  exists rs d', claim_repeatedly clocks d = (Returned rs, d').
Proof.
  revert d. induction clocks as [|[c1 c2] clocks IH]; intros d.
  - by eexists _, _.
  - destruct (claimTask_returns c1 c2 d) as (r & d1 & H1).
    destruct (IH d1) as (rs & d2 & H2). cbn [claim_repeatedly].
    erewrite bind_returned by exact H1. erewrite bind_returned by exact H2.
    by eexists _, _.
Qed.

(** X4. In a store with unique ids, successive claims never hand out the
    same task twice: however many times [claimTask] is called in a row,
    the tasks it returns have pairwise distinct ids, and each of them was
    [waiting] in the store the calls started from. *)
Theorem X4_claims_are_distinct (d : Disk) (clocks : list (Z * Z)) :
  NoDup (ids (tasks (loaded d))) ->
  exists rs d',
    claim_repeatedly clocks d = (Returned rs, d') /\
    length rs = length clocks /\
    NoDup (ids (omap id rs)) /\
    forall t, Some t ∈ rs ->
      exists i t0, tasks (loaded d) !! i = Some t0 /\
                   Task.id t0 = Task.id t /\ Task.state t0 = "waiting".
Proof.
  intros Hnd. destruct (claim_repeatedly_returns clocks d) as (rs & d' & Hrun).
  exists rs, d'. destruct (claim_repeatedly_distinct _ _ _ _ Hnd Hrun) as [H1 H2].
  split_and!; try done.
  clear Hnd H1 H2. revert d rs d' Hrun.
  induction clocks as [|[c1 c2] clocks IH]; intros d rs d' Hrun.
  - cbn in Hrun. by injection Hrun as <- <-.
  - cbn [claim_repeatedly] in Hrun.
    destruct (claimTask_returns c1 c2 d) as (r & d1 & H1).
    destruct (claim_repeatedly_returns clocks d1) as (rs1 & d2 & H2).
    erewrite bind_returned in Hrun by exact H1.
    erewrite bind_returned in Hrun by exact H2.
    injection Hrun as <- <-. cbn. f_equal. by eapply IH.
Qed.

Lemma X4_claims_are_distinct_witness :
  let d := Sample.store [Sample.waiting "a" "2026-01-02T00:00:00.000Z";
                         Sample.waiting "b" "2026-01-01T00:00:00.000Z"] in
  exists rs d',
    claim_repeatedly [(Sample.clock, Sample.clock); (Sample.clock, Sample.clock);
                      (Sample.clock, Sample.clock)] d = (Returned rs, d') /\
    length rs = 3%nat /\
    NoDup (ids (omap id rs)) /\
    forall t, Some t ∈ rs ->
      exists i t0, tasks (loaded d) !! i = Some t0 /\
                   Task.id t0 = Task.id t /\ Task.state t0 = "waiting".
Proof.
  apply (X4_claims_are_distinct
           (Sample.store [Sample.waiting "a" "2026-01-02T00:00:00.000Z";
                          Sample.waiting "b" "2026-01-01T00:00:00.000Z"])).
  apply NoDup_cons. split; [|apply NoDup_singleton].
  intros Hin. apply list_elem_of_singleton in Hin. discriminate Hin.
Defined.

(** ** The dead list and the requeue *)

Lemma deadListAction_returns d :
  deadListAction d
  = (Returned (filter (fun t => Task.state t = "failed") (tasks (loaded d))),
     after_load d).
Proof. unfold deadListAction. by rewrite bind_loadData. Qed.

Lemma find_failed_Some_iff id (ts : list Task.t) :
  is_Some (list_find (fun t => Task.id t = id /\ Task.state t = "failed") ts)
  <-> id ∈ ids (filter (fun t => Task.state t = "failed") ts).
Proof.
  split.
  - intros [[i t] Hfind]. apply list_find_Some in Hfind as (Hi & [Hid Hst] & _).
    unfold ids. rewrite <- Hid. apply list_elem_of_fmap_2.
    apply list_elem_of_filter. split; [done|by eapply list_elem_of_lookup_2].
  - intros Hin. apply list_elem_of_fmap in Hin as (t & -> & Ht).
    apply list_elem_of_filter in Ht as [Hst Ht].
    by apply (list_find_elem_of _ ts t).
Qed.

(** X5. [dead list] shows the tasks in state [failed], in stored order,
    without saving; and [dead retry <id>] is accepted exactly for the ids
    it shows, and exits with code 1 for every other id. *)
Theorem X5_dead_list_matches_retry (d : Disk) (id : string) (c : Z) :
  let shown := filter (fun t => Task.state t = "failed") (tasks (loaded d)) in
  deadListAction d = (Returned shown, after_load d) /\
  ((deadRetry id c d).1 = Returned tt <-> id ∈ ids shown) /\
  ((deadRetry id c d).1 = Exited 1 <-> id ∉ ids shown).
Proof.
  cbn zeta. split; [apply deadListAction_returns|].
  rewrite <- find_failed_Some_iff.
  destruct (list_find _ _) as [[i t]|] eqn:Hfind.
  - rewrite (deadRetry_found _ _ _ _ _ Hfind). cbn [fst]. split.
    + split; [intros _; by eexists|done].
    + split; [done|]. intros H. destruct H. by eexists.
  - rewrite (deadRetry_not_found _ _ _ Hfind). cbn [fst]. split.
    + split; [done|]. by intros [x Hx].
    + split; [|done]. by intros _ [x Hx].
Qed.

Lemma filter_id_other id (l : list Task.t) :
  id ∉ ids l -> filter (fun t => Task.id t <> id) l = l.
Proof.
  intros Hid. induction l as [|t l IH]; [done|].
  apply not_elem_of_cons in Hid as [Hne Hid].
  rewrite filter_cons_True by (cbn in Hne; congruence). by rewrite IH.
Qed.

(** X6. In a store with unique ids, an accepted [dead retry <id>] takes
    exactly that task off the dead list, leaves it claimable at once
    (whatever the time), and a second [dead retry] of the same id is
    rejected. *)
Theorem X6_requeue_leaves_dead_list (d : Disk) (id : string) (c c' : Z) :
  NoDup (ids (tasks (loaded d))) ->
  let shown := filter (fun t => Task.state t = "failed") (tasks (loaded d)) in
  id ∈ ids shown ->
  let d1 := (deadRetry id c d).2 in
  deadListAction d1
  = (Returned (filter (fun t => Task.id t <> id) shown), d1) /\
  (deadRetry id c' d1).1 = Exited 1 /\
  exists i t, tasks (loaded d1) !! i = Some t /\ Task.id t = id /\
              forall now, eligible now t = true.
Proof.
  intros Hnd shown Hin d1.
  apply find_failed_Some_iff in Hin as [[i t] Hfind].
  assert (Hd1 : d1 = saved (with_task i (requeued c t) (loaded d)) (after_load d)).
  { unfold d1. by rewrite (deadRetry_found _ _ _ _ _ Hfind). }
  apply list_find_Some in Hfind as (Hi & [Hid Hst] & _).
  assert (Hts1 : tasks (loaded d1) = <[i := requeued c t]> (tasks (loaded d))).
  { by rewrite Hd1, loaded_saved. }
  assert (Hal : after_load d1 = d1) by (by rewrite Hd1).
  pose proof (take_drop_middle _ _ _ Hi) as Hsplit.
  assert (Hlen : (i < length (tasks (loaded d)))%nat) by (by eapply lookup_lt_Some).
  assert (Hins : <[i := requeued c t]> (tasks (loaded d))
                 = take i (tasks (loaded d)) ++ requeued c t :: drop (S i) (tasks (loaded d))).
  { by rewrite insert_take_drop. }
  set (l1 := take i (tasks (loaded d))) in *.
  set (l2 := drop (S i) (tasks (loaded d))) in *.
  assert (Hother : (id ∉ ids l1) /\ (id ∉ ids l2)).
  { rewrite <- Hsplit in Hnd. unfold ids in Hnd. rewrite fmap_app, fmap_cons in Hnd.
    apply NoDup_app in Hnd as (_ & H12 & Hnd2). apply NoDup_cons in Hnd2 as [H2 _].
    rewrite Hid in *. split; [|done]. intros H1. apply (H12 _ H1). left. }
  destruct Hother as [Ho1 Ho2].
  assert (Hf1 : id ∉ ids (filter (fun t => Task.state t = "failed") l1)).
  { intros H. apply Ho1. apply list_elem_of_fmap in H as (u & -> & Hu).
    apply list_elem_of_filter in Hu as [_ Hu]. by apply list_elem_of_fmap_2. }
  assert (Hf2 : id ∉ ids (filter (fun t => Task.state t = "failed") l2)).
  { intros H. apply Ho2. apply list_elem_of_fmap in H as (u & -> & Hu).
    apply list_elem_of_filter in Hu as [_ Hu]. by apply list_elem_of_fmap_2. }
  split_and!.
  - rewrite deadListAction_returns, Hal, Hts1, Hins. f_equal. f_equal.
    unfold shown. rewrite <- Hsplit. fold l1 l2.
    rewrite !filter_app, !filter_cons.
    rewrite decide_False by (cbn; discriminate).
    rewrite decide_True by done.
    rewrite filter_cons_False by (intros H; by apply H).
    by rewrite !filter_id_other.
  - assert (Hnone : list_find (fun t => Task.id t = id /\ Task.state t = "failed")
                      (tasks (loaded d1)) = None).
    { apply list_find_None, Forall_forall. intros u Hu [Hidu Hstu].
      rewrite Hts1, Hins in Hu. apply elem_of_app in Hu as [Hu|Hu].
      - apply Ho1. rewrite <- Hidu. by apply list_elem_of_fmap_2.
      - apply elem_of_cons in Hu as [->|Hu]; [discriminate Hstu|].
        apply Ho2. rewrite <- Hidu. by apply list_elem_of_fmap_2. }
    by rewrite (deadRetry_not_found _ _ _ Hnone).
  - exists i, (requeued c t). split_and!; [|done|done].
    rewrite Hts1. by apply list_lookup_insert_eq.
Qed.

Lemma X6_requeue_leaves_dead_list_witness :
  let d := Sample.store [Sample.failed "y"; Sample.done "d"; Sample.failed "x"] in
  let d1 := (deadRetry "x" Sample.clock d).2 in
  deadListAction d1 = (Returned [Sample.failed "y"], d1) /\
  (deadRetry "x" Sample.clock d1).1 = Exited 1.
Proof.
  assert (Hnd : NoDup (ids (tasks (loaded
            (Sample.store [Sample.failed "y"; Sample.done "d"; Sample.failed "x"]))))).
  { refine (bool_decide_unpack _ _). vm_compute. exact I. }
  assert (Hin : "x" ∈ ids (filter (fun t => Task.state t = "failed")
            (tasks (loaded
               (Sample.store [Sample.failed "y"; Sample.done "d"; Sample.failed "x"]))))).
  { refine (bool_decide_unpack _ _). vm_compute. exact I. }
  destruct (X6_requeue_leaves_dead_list _ "x" Sample.clock Sample.clock Hnd Hin)
    as (H1 & H2 & _).
  split; [exact H1|exact H2].
Defined.

(** ** The summary of [status] *)

(** The number of tasks of [ts] in state [s]. *)
Lemma tally_step_other a t s :
  Task.state t <> s -> tally_step a t !! s = a !! s.
Proof.
  intros Hne. unfold tally_step.
  destruct (_ =? _)%string; [done|].
  destruct (a !! Task.state t) as [[n|]|]; [| |case_bool_decide];
    by rewrite lookup_insert_ne.
Qed.

Lemma tally_step_same a t s :
  Task.state t = s -> s <> "__proto__" -> s ∉ PROTOTYPE_KEYS ->
  (a !! s = None -> tally_step a t !! s = Some (Count 1)) /\
  (forall n, a !! s = Some (Count n) -> tally_step a t !! s = Some (Count (n + 1))).
Proof.
  intros <- Hp Hk. unfold tally_step.
  rewrite (proj2 (String.eqb_neq _ _) Hp). split.
  - intros ->. rewrite bool_decide_eq_false_2 by done. by rewrite lookup_insert_eq.
  - intros n ->. by rewrite lookup_insert_eq.
Qed.

Lemma summary_lookup (ts : list Task.t) a s :
  s <> "__proto__" -> s ∉ PROTOTYPE_KEYS ->
  let n := N.of_nat (length (filter (fun t => Task.state t = s) ts)) in
  (a !! s = None ->
   foldl tally_step a ts !! s = if decide (n = 0%N) then None else Some (Count n)) /\
  (forall m, a !! s = Some (Count m) ->
   foldl tally_step a ts !! s = Some (Count (m + n))).
Proof.
  intros Hp Hk. revert a. induction ts as [|t ts IH]; intros a.
  { cbn. split; [done|]. intros m ->. by rewrite N.add_0_r. }
  cbn [foldl]. rewrite filter_cons.
  destruct (decide (Task.state t = s)) as [Heq|Hne].
  - destruct (tally_step_same a t s Heq Hp Hk) as [H0 H1].
    destruct (IH (tally_step a t)) as [_ IH1]. cbn zeta in *. cbn [length].
    split.
    + intros Ha. rewrite (IH1 1%N) by auto.
      rewrite decide_False by lia. do 2 f_equal. lia.
    + intros m Ha. rewrite (IH1 (m + 1)%N) by auto. do 2 f_equal. lia.
  - destruct (IH (tally_step a t)) as [IH0 IH1]. cbn zeta in *.
    rewrite (tally_step_other a t s Hne) in IH0, IH1. by split.
Qed.

(** X7. [status] counts the tasks by state: for every state name that is
    not a property name inherited from [Object.prototype], the summary
    holds the number of tasks in that state, and no entry when there is
    none. The action does not save. *)
Theorem X7_status_counts (d : Disk) (s : string) :
  s <> "__proto__" -> s ∉ PROTOTYPE_KEYS ->
  let n := N.of_nat (length (filter (fun t => Task.state t = s) (tasks (loaded d)))) in
  exists summary,
    statusAction d = (Returned summary, after_load d) /\
    summary !! s = if decide (n = 0%N) then None else Some (Count n).
Proof.
  intros Hp Hk n. unfold statusAction. rewrite bind_loadData.
  eexists. split; [reflexivity|].
  by apply (summary_lookup (tasks (loaded d)) ∅ s Hp Hk).
Qed.

Lemma X7_status_counts_witness :
  exists summary,
    statusAction (Sample.store [Sample.failed "y"; Sample.done "d"; Sample.failed "x"])
    = (Returned summary,
       Sample.store [Sample.failed "y"; Sample.done "d"; Sample.failed "x"]) /\
    summary !! "failed" = Some (Count 2).
Proof.
  apply (X7_status_counts
           (Sample.store [Sample.failed "y"; Sample.done "d"; Sample.failed "x"])
           "failed").
  - discriminate.
  - refine (bool_decide_unpack _ _). vm_compute. exact I.
Defined.

(** A state named like an inherited property is not counted. *)
Example status_inherited_names :
  (statusAction
     (Sample.store [Task.with_state "__proto__" (Sample.done "a");
                    Task.with_state "toString" (Sample.done "b");
                    Task.with_state "toString" (Sample.done "c")])).1
  = Returned {[ "toString" := NotANumber ]}.
Proof. vm_compute. reflexivity. Qed.

(** ** Initialising the store *)

(** X8. [init] writes only when there is no data file, and then a store
    with no tasks and the default configuration; a file that exists, of
    whatever content, is left as it is. It never changes what a load
    returns, and a second [init] does nothing. *)
Theorem X8_init_creates_once (d : Disk) :
  (content d = NoFile -> initData d = (Returned tt, saved empty_data d)) /\
  (content d <> NoFile -> initData d = (Returned tt, d)) /\
  content (initData d).2 <> NoFile /\
  loaded (initData d).2 = loaded d /\
  (initData ≫= fun _ => initData) d = initData d.
Proof.
  destruct d as [[| | |jobs cfg|ts cfg] n]; split_and!; try done.
Qed.

(** ** Worker pool registry *)

Lemma filter_all_alive (l alive : list Z) :
  l ⊆ alive -> filter (fun x => x ∈ alive) l = l.
Proof.
  induction l as [|x l IH]; intros Hsub; [done|].
  rewrite filter_cons_True by (apply Hsub; left).
  rewrite IH; [done|]. intros y Hy. apply Hsub. by right.
Qed.

Lemma map_signal_alive (p : Pool.t) (ws : list Pool.Worker) :
  map Pool.pid ws ⊆ Pool.alive p ->
  map (Pool.signal p) ws = map (fun w => Pool.Sent (Pool.pid w)) ws.
Proof.
  induction ws as [|w ws IH]; intros Hsub; [done|]. cbn [map]. f_equal.
  - unfold Pool.signal. rewrite bool_decide_eq_true_2; [done|]. apply Hsub. left.
  - apply IH. intros y Hy. apply Hsub. by right.
Qed.

Lemma spawned_pids (children : list (Z * Z)) :
  map Pool.pid
      (map (fun c : Z * Z =>
              {| Pool.pid := c.1; Pool.started_at := timestamp c.2 |}) children)
  = map fst children.
Proof. by rewrite map_map. Qed.

Lemma stop_spawned (p : Pool.t) (children : list (Z * Z)) :
  children <> [] ->
  Pool.stopWorkersFromMeta (Pool.spawnWorkers children p)
  = (map (fun c => Pool.Sent c.1) children,
     {| Pool.registry := Pool.NoRegistry;
        Pool.alive := Pool.alive p ++ map fst children;
        Pool.signalled := Pool.signalled p ++ map fst children |}).
Proof.
  intros Hne.
  unfold Pool.stopWorkersFromMeta, Pool.spawnWorkers.
  cbn [Pool.registry Pool.recorded Pool.alive Pool.signalled].
  destruct children as [|c children]; [done|].
  set (ws := map _ (c :: children)).
  assert (Hpids : map Pool.pid ws = map fst (c :: children)) by apply spawned_pids.
  assert (Hsub : map Pool.pid ws ⊆ Pool.alive p ++ map fst (c :: children)).
  { rewrite Hpids. intros x Hx. apply elem_of_app. by right. }
  destruct ws as [|w ws'] eqn:Hws; [done|]. rewrite <- Hws in *.
  f_equal.
  - rewrite map_signal_alive by done. unfold ws. by rewrite map_map.
  - f_equal. rewrite filter_all_alive by done. by rewrite Hpids.
Qed.

Lemma map_ext_elem {A B} (f g : A -> B) (l : list A) :
  (forall x, x ∈ l -> f x = g x) -> map f l = map g l.
Proof.
  induction l as [|x l IH]; intros Hfg; [done|]. cbn [map]. f_equal.
  - apply Hfg. left.
  - apply IH. intros y Hy. apply Hfg. by right.
Qed.

Lemma filter_ext_elem {A} (P Q : A -> Prop) `{!forall x, Decision (P x)}
    `{!forall x, Decision (Q x)} (l : list A) :
  (forall x, x ∈ l -> P x <-> Q x) -> filter P l = filter Q l.
Proof.
  induction l as [|x l IH]; intros HPQ; [done|].
  assert (Hl : filter P l = filter Q l).
  { apply IH. intros y Hy. apply HPQ. by right. }
  destruct (decide (P x)) as [HP|HP].
  - rewrite !filter_cons_True; [by rewrite Hl|by apply HPQ; [left|]|done].
  - rewrite !filter_cons_False; [done| |done].
    intros HQ. apply HP. apply HPQ; [left|done].
Qed.

Lemma spawned_alive (p : Pool.t) (children : list (Z * Z)) (gone : list Z) x :
  x ∈ map fst children ->
  x ∈ Pool.alive (Pool.exits gone (Pool.spawnWorkers children p)) <-> x ∉ gone.
Proof.
  intros Hx. cbn. rewrite list_elem_of_filter, elem_of_app. tauto.
Qed.

(** X9. [worker stop] after [worker start], whichever of the processes
    have ended in between: each process the start recorded is reported in
    the order of starting, as sent its [SIGINT] when it still runs and as
    not signalled when it has ended; the running ones, and no others, get
    one [SIGINT]; the registry file is removed, so a second [worker stop]
    finds no metadata and signals nobody. *)
Theorem X9_stop_after_start (p : Pool.t) (children : list (Z * Z))
    (gone : list Z) :
  children <> [] ->
  let started := Pool.exits gone (Pool.spawnWorkers children p) in
  let r := Pool.stopWorkersFromMeta started in
  r.1 = map (fun c => if bool_decide (c.1 ∈ gone)
                      then Pool.CouldNotSignal c.1 else Pool.Sent c.1) children /\
  Pool.signalled r.2
  = Pool.signalled p ++ filter (fun x => x ∉ gone) (map fst children) /\
  Pool.registry r.2 = Pool.NoRegistry /\
  Pool.alive r.2 = Pool.alive started /\
  Pool.stopWorkersFromMeta r.2 = ([Pool.NoMetadata], r.2).
Proof.
  intros Hne started r.
  assert (Hr : r =
    (map (Pool.signal started)
         (map (fun c : Z * Z =>
                 {| Pool.pid := c.1; Pool.started_at := timestamp c.2 |}) children),
     {| Pool.registry := Pool.NoRegistry;
        Pool.alive := Pool.alive started;
        Pool.signalled :=
          Pool.signalled p
          ++ filter (fun x => x ∈ Pool.alive started) (map fst children) |})).
  { unfold r, Pool.stopWorkersFromMeta, started, Pool.exits, Pool.spawnWorkers.
    cbn [Pool.registry Pool.recorded Pool.alive Pool.signalled].
    destruct children as [|c children]; [done|].
    set (ws := map _ (c :: children)).
    assert (Hpids : map Pool.pid ws = map fst (c :: children))
      by apply spawned_pids.
    destruct ws as [|w ws'] eqn:Hws; [done|]. rewrite <- Hws in *.
    by rewrite Hpids. }
  rewrite Hr. cbn [fst snd Pool.signalled Pool.registry Pool.alive].
  split_and!; [| |done..].
  - rewrite map_map. apply map_ext_elem. intros c Hc.
    unfold Pool.signal. cbn [Pool.pid].
    assert (Hx : c.1 ∈ map fst children) by (apply list_elem_of_fmap; eauto).
    pose proof (spawned_alive p children gone _ Hx) as Hiff. fold started in Hiff.
    destruct (decide (c.1 ∈ gone)) as [Hg|Hg].
    + rewrite (bool_decide_eq_true_2 _ Hg), bool_decide_eq_false_2; [done|].
      intros Ha. by apply Hiff in Ha.
    + rewrite (bool_decide_eq_false_2 _ Hg), bool_decide_eq_true_2; [done|].
      by apply Hiff.
  - f_equal. apply filter_ext_elem. intros x Hx.
    apply (spawned_alive p children gone _ Hx).
Qed.

Lemma X9_stop_after_start_witness :
  let p := {| Pool.registry := Pool.NoRegistry; Pool.alive := [1];
              Pool.signalled := [] |} in
  let r := Pool.stopWorkersFromMeta
             (Pool.exits [4712]
                (Pool.spawnWorkers [(4711, Sample.clock); (4712, Sample.clock)] p)) in
  r.1 = [Pool.Sent 4711; Pool.CouldNotSignal 4712] /\
  Pool.signalled r.2 = [4711] /\
  Pool.stopWorkersFromMeta r.2 = ([Pool.NoMetadata], r.2).
Proof.
  destruct (X9_stop_after_start
              {| Pool.registry := Pool.NoRegistry; Pool.alive := [1];
                 Pool.signalled := [] |}
              [(4711, Sample.clock); (4712, Sample.clock)] [4712])
    as (Hrep & Hsig & _ & _ & Hagain).
  - discriminate.
  - split_and!; [exact Hrep|exact Hsig|exact Hagain].
Defined.

(** X10. The registry holds the workers of the last [worker start] only:
    after two starts, [worker stop] signals the processes of the second
    and none of the first, which stay alive and unrecorded. *)
Theorem X10_second_start_forgets_first (p : Pool.t) (first second : list (Z * Z)) :
  let started := Pool.spawnWorkers second (Pool.spawnWorkers first p) in
  let stopped := (Pool.stopWorkersFromMeta started).2 in
  Pool.signalled stopped = Pool.signalled p ++ map fst second /\
  Pool.alive stopped = (Pool.alive p ++ map fst first) ++ map fst second /\
  Pool.recorded (Pool.registry stopped) = [] /\
  forall x, x ∈ map fst first -> x ∉ map fst second -> x ∉ Pool.signalled p ->
            x ∈ Pool.alive stopped /\ x ∉ Pool.signalled stopped.
Proof.
  cbn zeta.
  assert (Hsig : Pool.signalled
            (Pool.stopWorkersFromMeta
               (Pool.spawnWorkers second (Pool.spawnWorkers first p))).2
          = Pool.signalled p ++ map fst second).
  { destruct second as [|c second]; [by rewrite app_nil_r|].
    by rewrite stop_spawned. }
  assert (Hal : Pool.alive
            (Pool.stopWorkersFromMeta
               (Pool.spawnWorkers second (Pool.spawnWorkers first p))).2
          = (Pool.alive p ++ map fst first) ++ map fst second).
  { destruct second as [|c second]; [done|].
    by rewrite stop_spawned. }
  split_and!; [done|done| |].
  - destruct second as [|c second]; [done|].
    by rewrite stop_spawned.
  - intros x H1 H2 H3. rewrite Hsig, Hal. split.
    + apply elem_of_app. left. apply elem_of_app. by right.
    + intros [H|H]%elem_of_app; done.
Qed.

(** ** From when a retry can be claimed *)

Lemma four_digit_valid tv : four_digit_year tv = true -> Host.valid_time tv = true.
Proof.
  unfold four_digit_year, FIRST_MS, LAST_MS, Host.valid_time, Host.MAX_TIME.
  intros [??]%andb_true_iff. apply andb_true_iff. lia.
Qed.

Lemma eligible_due now t :
  eligible now t =
  (Task.state t =? "waiting")%string &&
  match Task.next_run_at t with Some s => (s <=? now)%string | None => true end.
Proof.
  unfold eligible. f_equal. destruct (Task.next_run_at t) as [s|]; [|done].
  cbn. destruct (String.eqb_spec s "") as [->|]; [|done].
  by destruct now.
Qed.

Lemma worker_base_nonzero db : worker_base db <> 0.
Proof.
  unfold worker_base, Host.Z_or, DEFAULT_BACKOFF_BASE.
  destruct (Config.backoff_base _) as [n|]; [|done].
  by destruct (Z.eqb_spec n 0).
Qed.

Lemma worker_retry_time db a dateNow :
  retry_time (Some (worker_base db)) (config db) a dateNow =
  dateNow + worker_base db ^ Z.of_N (a + 1) * 1000.
Proof.
  unfold retry_time, backoff_base, Host.Math_pow. cbn [Host.Z_or].
  by destruct (Z.eqb_spec (worker_base db) 0) as [?%worker_base_nonzero|].
Qed.

(** X11. After a failure that leaves retries, the task can next be claimed
    exactly from its retry time on: for retry and claim times in the
    years 0000 to 9999 the comparison of the two ISO strings made by
    [claimTask] agrees with the comparison of the times. *)
Theorem X11_claimable_from_retry_time (v : script) (id : string) (a mr : N) (code : Z)
    (err : string) (base : option Z) (dateNow clock : Z) (d : Disk)
    (i : nat) (t : Task.t) :
  list_find (fun u => Task.id u = id) (tasks (loaded d)) = Some (i, t) ->
  exhausted v (a + 1) (Task.max_retries t) = false ->
  let rt := retry_time base (config (loaded d)) a dateNow in
  four_digit_year rt = true ->
  exists t',
    markFailed v id a mr code err base dateNow clock d =
      (Returned tt, saved (with_task i t' (loaded d)) (after_load d)) /\
    forall c, four_digit_year c = true ->
      eligible (timestamp c) t' = (rt <=? c).
Proof.
  intros Hfind Hex rt Hrt.
  exists (retry_record a code err (Host.iso_string rt) clock t). split.
  - rewrite (markFailed_found _ _ _ _ _ _ _ _ _ _ _ _ Hfind), Hex.
    fold rt. by rewrite (four_digit_valid _ Hrt).
  - intros c Hc. rewrite eligible_due. cbn.
    by apply iso_string_leb.
Qed.

Lemma X11_claimable_from_retry_time_witness :
  exists t',
    markFailed PoolScript "b" 0 3 1 "Exit 1" None Sample.clock Sample.clock
               Demo.queue =
      (Returned tt,
       saved (with_task 1 t' (loaded Demo.queue)) (after_load Demo.queue)) /\
    forall c, four_digit_year c = true ->
      eligible (timestamp c) t' =
      (retry_time None (config (loaded Demo.queue)) 0 Sample.clock <=? c).
Proof.
  apply (X11_claimable_from_retry_time PoolScript "b" 0 3 1 "Exit 1" None Sample.clock
           Sample.clock Demo.queue 1
           (Sample.waiting "b" "2026-01-01T00:00:00.000Z"));
    vm_compute; reflexivity.
Defined.

(** ** One turn of the worker *)

Lemma find_by_id ts i t :
  NoDup (ids ts) -> ts !! i = Some t ->
  list_find (fun u => Task.id u = Task.id t) ts = Some (i, t).
Proof.
  intros Hnd Hi. apply list_find_Some. split_and!; [done|done|].
  intros j y Hj Hlt Hid.
  assert (j = i); [|lia].
  apply (NoDup_lookup (ids ts) j i (Task.id t) Hnd).
  - unfold ids. by rewrite list_lookup_fmap, Hj, <- Hid.
  - unfold ids. by rewrite list_lookup_fmap, Hi.
Qed.

Lemma insert_twice {A} (l : list A) i x y : <[i := x]> (<[i := y]> l) = <[i := x]> l.
Proof. rewrite list_insert_insert. by case_decide. Qed.

Lemma with_task_twice i x y data :
  with_task i x (with_task i y data) = with_task i x data.
Proof. unfold with_task. cbn. by rewrite insert_twice. Qed.

(** The store a claim leaves, as the rest of the turn finds it. *)
Lemma claimed_store (c : Z) (d d0 : Disk) (i : nat) (t : Task.t) :
  NoDup (ids (tasks (loaded d))) ->
  tasks (loaded d) !! i = Some t ->
  let d1 := saved (with_task i (claimed c t) (loaded d)) d0 in
  loaded d1 = with_task i (claimed c t) (loaded d) /\
  after_load d1 = d1 /\
  list_find (fun u => Task.id u = Task.id t) (tasks (loaded d1))
    = Some (i, claimed c t).
Proof.
  intros Hnd Hi d1. split_and!.
  - apply loaded_saved.
  - apply after_load_canonical, legacy_saved.
  - unfold d1. rewrite loaded_saved. cbn [with_task tasks].
    change (Task.id t) with (Task.id (claimed c t)).
    apply find_by_id.
    + by rewrite (ids_insert_same _ _ t).
    + apply list_lookup_insert_eq. by eapply lookup_lt_Some.
Qed.

Lemma workerTurn_claimed v run ck d i t rest :
  available (timestamp (claim_now ck)) (tasks (loaded d)) = (i, t) :: rest ->
  let c := claimed (claim_stamp ck) t in
  let d1 := saved (with_task i c (loaded d)) (after_load d) in
  let base := worker_base (loaded d1) in
  workerTurn v run ck d =
  match execCommand (run (Task.command t)) with
  | inl code =>
      try_catch
        (if code =? 0 then markDone (Task.id t) (settle_stamp ck)
         else markFailed v (Task.id t) (Task.attempts t) (Task.max_retries t)
                code ("Exit " +:+ pretty code) (Some base)
                (settle_now ck) (settle_stamp ck))
        (fun err =>
           markFailed v (Task.id t) (Task.attempts t) (Task.max_retries t)
             (-1) (String_of_exn err) (Some base)
             (again_now ck) (again_stamp ck)) (after_load d1)
  | inr err =>
      markFailed v (Task.id t) (Task.attempts t) (Task.max_retries t)
        (-1) err (Some base) (settle_now ck) (settle_stamp ck) (after_load d1)
  end.
Proof.
  intros Hav c d1 base. unfold workerTurn.
  rewrite (bind_returned _ _ _ _ _ (claimTask_found _ (claim_stamp ck) _ _ _ _ Hav)).
  rewrite bind_loadData.
  change (Task.command (claimed (claim_stamp ck) t)) with (Task.command t).
  by destruct (execCommand (run (Task.command t))).
Qed.

(** What a failing turn does once the claim is made. *)
Lemma workerTurn_failure v run ck d i t rest code msg :
  NoDup (ids (tasks (loaded d))) ->
  available (timestamp (claim_now ck)) (tasks (loaded d)) = (i, t) :: rest ->
  failure_of (run (Task.command t)) = Some (code, msg) ->
  let c := claimed (claim_stamp ck) t in
  let d1 := saved (with_task i c (loaded d)) (after_load d) in
  let a := Task.attempts t in
  let delay := worker_base (loaded d) ^ Z.of_N (a + 1) * 1000 in
  workerTurn v run ck d =
  if exhausted v (a + 1) (Task.max_retries t) then
    (Returned tt,
     saved (with_task i (failed_record a code msg (settle_stamp ck) c) (loaded d)) d1)
  else if Host.valid_time (settle_now ck + delay) then
    (Returned tt,
     saved (with_task i (retry_record a code msg
                           (Host.iso_string (settle_now ck + delay))
                           (settle_stamp ck) c) (loaded d)) d1)
  else
    match execCommand (run (Task.command t)) with
    | inl _ =>
        if Host.valid_time (again_now ck + delay) then
          (Returned tt,
           saved (with_task i
                    (retry_record a (-1) (String_of_exn InvalidTimeValue)
                       (Host.iso_string (again_now ck + delay))
                       (again_stamp ck) c) (loaded d)) d1)
        else (Thrown InvalidTimeValue, d1)
    | inr _ => (Thrown InvalidTimeValue, d1)
    end.
Proof.
  intros Hnd Hav Hfail c d1 a delay.
  destruct (available_head _ _ _ _ _ Hav) as (Hi & _ & _).
  destruct (claimed_store (claim_stamp ck) d (after_load d) i t Hnd Hi)
    as (Hl & Hal & Hfind).
  fold c in Hl, Hal, Hfind. fold d1 in Hl, Hal, Hfind.
  rewrite (workerTurn_claimed _ _ _ _ _ _ _ Hav). fold c d1. rewrite Hal.
  assert (Hb : worker_base (loaded d1) = worker_base (loaded d))
    by (by rewrite Hl).
  assert (Hrt : forall n, retry_time (Some (worker_base (loaded d1)))
                            (config (loaded d1)) a n = n + delay).
  { intros n. rewrite worker_retry_time. unfold delay. by rewrite Hb. }
  assert (Hmf : forall code msg n s,
    markFailed v (Task.id t) a (Task.max_retries t) code msg
      (Some (worker_base (loaded d1))) n s d1 =
    if exhausted v (a + 1) (Task.max_retries t) then
      (Returned tt, saved (with_task i (failed_record a code msg s c) (loaded d)) d1)
    else if Host.valid_time (n + delay) then
      (Returned tt,
       saved (with_task i (retry_record a code msg (Host.iso_string (n + delay)) s c)
                (loaded d)) d1)
    else (Thrown InvalidTimeValue, d1)).
  { intros code' msg' n s.
    rewrite (markFailed_found _ _ _ _ _ _ _ _ _ _ _ _ Hfind).
    change (Task.max_retries c) with (Task.max_retries t).
    rewrite Hrt, Hal, Hl, !with_task_twice. done. }
  unfold failure_of in Hfail.
  destruct (execCommand (run (Task.command t))) as [code'|err].
  - destruct (Z.eqb_spec code' 0); [done|]. simplify_eq.
    unfold try_catch. rewrite Hmf.
    destruct (exhausted v (a + 1) (Task.max_retries t)) eqn:Hex; [done|].
    destruct (Host.valid_time (settle_now ck + delay)); [done|].
    cbv beta iota. by rewrite Hmf.
  - simplify_eq. rewrite Hmf.
    destruct (exhausted v (a + 1) (Task.max_retries t)); [done|].
    by destruct (Host.valid_time (settle_now ck + delay)).
Qed.

(** X12. A turn whose command exits with code 0 leaves the claimed task
    [done] with exit code 0, and every other record as it was: the turn
    writes the store twice, once for the claim and once for the result. *)
Theorem X12_turn_success (v : script) (run : string -> proc_event)
    (ck : Clocks) (d : Disk) (i : nat) (t : Task.t) (rest : list (nat * Task.t)) :
  NoDup (ids (tasks (loaded d))) ->
  available (timestamp (claim_now ck)) (tasks (loaded d)) = (i, t) :: rest ->
  run (Task.command t) = ProcExit (Some 0) ->
  let final := done_record (settle_stamp ck) (claimed (claim_stamp ck) t) in
  exists d',
    workerTurn v run ck d = (Returned tt, d') /\
    loaded d' = with_task i final (loaded d) /\
    writes d' = (2 + writes (after_load d))%nat /\
    Task.state final = "done" /\ Task.exit_code final = Some 0 /\
    Task.attempts final = Task.attempts t.
Proof.
  intros Hnd Hav Hrun final.
  destruct (available_head _ _ _ _ _ Hav) as (Hi & _ & _).
  destruct (claimed_store (claim_stamp ck) d (after_load d) i t Hnd Hi)
    as (Hl & Hal & Hfind).
  exists (saved (with_task i final (loaded d))
            (saved (with_task i (claimed (claim_stamp ck) t) (loaded d))
                   (after_load d))).
  split_and!; [|apply loaded_saved|done..].
  rewrite (workerTurn_claimed _ _ _ _ _ _ _ Hav), Hrun. cbn [execCommand].
  change (0 =? 0) with true. cbv beta iota. unfold try_catch.
  rewrite Hal, (markDone_found _ _ _ _ _ Hfind), Hal, Hl, with_task_twice. done.
Qed.

Lemma X12_turn_success_witness :
  let t := Sample.waiting "b" "2026-01-01T00:00:00.000Z" in
  let ck := Demo.turn Sample.clock in
  let final := done_record (settle_stamp ck) (claimed (claim_stamp ck) t) in
  exists d',
    workerTurn PoolScript (Demo.always (ProcExit (Some 0))) ck Demo.queue
      = (Returned tt, d') /\
    loaded d' = with_task 1 final (loaded Demo.queue) /\
    writes d' = 2%nat.
Proof.
  destruct (X12_turn_success PoolScript (Demo.always (ProcExit (Some 0)))
              (Demo.turn Sample.clock) Demo.queue 1
              (Sample.waiting "b" "2026-01-01T00:00:00.000Z") [])
    as (d' & Hrun & Hl & Hw & _).
  - refine (bool_decide_unpack _ _). vm_compute. exact I.
  - vm_compute. reflexivity.
  - reflexivity.
  - exists d'. split_and!; [exact Hrun|exact Hl|exact Hw].
Defined.

(** X13. A turn whose command fails (a non-zero exit code, a signal, or
    a process that could not be started) scores one more attempt on the
    claimed task and records the exit code and the error text: the task
    becomes [failed] when the retries are used up, and otherwise goes
    back to [waiting] with a retry time, provided that retry time is a
    valid date. *)
Theorem X13_turn_failure (v : script) (run : string -> proc_event)
    (ck : Clocks) (d : Disk) (i : nat) (t : Task.t) (rest : list (nat * Task.t))
    (code : Z) (msg : string) :
  NoDup (ids (tasks (loaded d))) ->
  available (timestamp (claim_now ck)) (tasks (loaded d)) = (i, t) :: rest ->
  failure_of (run (Task.command t)) = Some (code, msg) ->
  let c := claimed (claim_stamp ck) t in
  let a := Task.attempts t in
  let rt := settle_now ck + worker_base (loaded d) ^ Z.of_N (a + 1) * 1000 in
  let final :=
    if exhausted v (a + 1) (Task.max_retries t)
    then failed_record a code msg (settle_stamp ck) c
    else retry_record a code msg (Host.iso_string rt) (settle_stamp ck) c in
  (exhausted v (a + 1) (Task.max_retries t) = false ->
   Host.valid_time rt = true) ->
  exists d',
    workerTurn v run ck d = (Returned tt, d') /\
    loaded d' = with_task i final (loaded d) /\
    Task.attempts final = (a + 1)%N /\
    Task.state final =
      (if exhausted v (a + 1) (Task.max_retries t) then "failed" else "waiting") /\
    Task.exit_code final = Some code /\
    Task.last_error final = Some msg.
Proof.
  intros Hnd Hav Hfail c a rt final Hvalid.
  exists (saved (with_task i final (loaded d))
            (saved (with_task i c (loaded d)) (after_load d))).
  split_and!; [|apply loaded_saved|unfold final; by destruct (exhausted _ _ _)..].
  rewrite (workerTurn_failure _ _ _ _ _ _ _ _ _ Hnd Hav Hfail).
  fold c a rt. unfold final.
  destruct (exhausted v (a + 1) (Task.max_retries t)); [done|].
  by rewrite Hvalid.
Qed.

Lemma X13_turn_failure_witness :
  let t := Sample.waiting "b" "2026-01-01T00:00:00.000Z" in
  let ck := Demo.turn Sample.clock in
  exists d',
    workerTurn PoolScript (Demo.always (ProcExit None)) ck Demo.queue
      = (Returned tt, d') /\
    loaded d' =
      with_task 1
        (retry_record 0 (-1) "Exit -1"
           (Host.iso_string (Sample.clock + 1000 + 2000))
           (settle_stamp ck) (claimed (claim_stamp ck) t))
        (loaded Demo.queue).
Proof.
  destruct (X13_turn_failure PoolScript (Demo.always (ProcExit None))
              (Demo.turn Sample.clock) Demo.queue 1
              (Sample.waiting "b" "2026-01-01T00:00:00.000Z") [] (-1) "Exit -1")
    as (d' & Hrun & Hl & _).
  - refine (bool_decide_unpack _ _). vm_compute. exact I.
  - vm_compute. reflexivity.
  - reflexivity.
  - intros _. reflexivity.
  - exists d'. split; [exact Hrun|exact Hl].
Defined.

(** X14. When the retry time of a failing turn is no valid date, at the
    first reading of the clock and again in the handler, the worker loop
    ends with the [RangeError], whatever turns were to follow; the only
    write of the turn is the claim, so the task stays [running], which no
    later claim picks up. *)
Theorem X14_turn_crash (v : script) (run : string -> proc_event)
    (ck : Clocks) (d : Disk) (i : nat) (t : Task.t) (rest : list (nat * Task.t))
    (code : Z) (msg : string) (more : list (bool * Clocks)) :
  NoDup (ids (tasks (loaded d))) ->
  available (timestamp (claim_now ck)) (tasks (loaded d)) = (i, t) :: rest ->
  failure_of (run (Task.command t)) = Some (code, msg) ->
  let c := claimed (claim_stamp ck) t in
  let delay := worker_base (loaded d) ^ Z.of_N (Task.attempts t + 1) * 1000 in
  exhausted v (Task.attempts t + 1) (Task.max_retries t) = false ->
  Host.valid_time (settle_now ck + delay) = false ->
  Host.valid_time (again_now ck + delay) = false ->
  exists d',
    workerLoopOnce v run ((false, ck) :: more) d = (Thrown InvalidTimeValue, d') /\
    loaded d' = with_task i c (loaded d) /\
    writes d' = S (writes (after_load d)) /\
    Task.state c = "running" /\
    forall now, eligible now c = false.
Proof.
  intros Hnd Hav Hfail c delay Hex Hv1 Hv2.
  exists (saved (with_task i c (loaded d)) (after_load d)).
  split_and!; [|apply loaded_saved|done|done|intros; apply claimed_not_eligible].
  cbn [workerLoopOnce]. apply bind_thrown.
  rewrite (workerTurn_failure _ _ _ _ _ _ _ _ _ Hnd Hav Hfail), Hex.
  fold delay. rewrite Hv1, Hv2. by destruct (execCommand _).
Qed.

Lemma X14_turn_crash_witness :
  let d := Sample.store_with Demo.far
             [Sample.waiting "b" "2026-01-01T00:00:00.000Z"] in
  let ck := Demo.turn Sample.clock in
  exists d',
    workerLoopOnce PoolScript (Demo.always (ProcExit (Some 1)))
      [(false, ck); (false, Demo.turn (Sample.clock + 5000))] d
      = (Thrown InvalidTimeValue, d') /\
    loaded d' =
      with_task 0 (claimed (claim_stamp ck)
                     (Sample.waiting "b" "2026-01-01T00:00:00.000Z")) (loaded d).
Proof.
  destruct (X14_turn_crash PoolScript (Demo.always (ProcExit (Some 1)))
              (Demo.turn Sample.clock)
              (Sample.store_with Demo.far
                 [Sample.waiting "b" "2026-01-01T00:00:00.000Z"]) 0
              (Sample.waiting "b" "2026-01-01T00:00:00.000Z") [] 1 "Exit 1"
              [(false, Demo.turn (Sample.clock + 5000))])
    as (d' & Hrun & Hl & _).
  - refine (bool_decide_unpack _ _). vm_compute. exact I.
  - vm_compute. reflexivity.
  - reflexivity.
  - reflexivity.
  - reflexivity.
  - reflexivity.
  - exists d'. split; [exact Hrun|exact Hl].
Defined.

(** ** Retries until the task is given up *)






(** ** The built-in check on a store that holds tasks *)

Lemma initData_existing d :
  content d <> NoFile -> initData d = (Returned tt, d).
Proof. destruct d as [c n]. cbn. intros Hc. by destruct c. Qed.




(** ** A data file that is no store *)

(** X17. A data file that does not parse, or parses to another shape,
    reads as the empty store and is left alone by every read: [init],
    [claimTask], [markDone], [markFailed] and the listing do not write.
    The first [add] replaces the file by a store that holds the new task
    only. *)
Theorem X17_unreadable_file (v : script) (d : Disk) (p : Payload.t)
    (uuid id err : string) (a m : N) (code : Z) (base : option Z)
    (c1 c2 : Z) (state : option string) :
  content d = Unparsable \/ content d = OtherShape ->
  Host.truthy_str (Payload.command p) = true ->
  loadData d = (Returned empty_data, d) /\
  initData d = (Returned tt, d) /\
  claimTask c1 c2 d = (Returned None, d) /\
  markDone id c1 d = (Returned tt, d) /\
  markFailed v id a m code err base c1 c2 d = (Returned tt, d) /\
  listAction state d = (Returned [], d) /\
  let entry := new_entry p empty_data (Host.str_or (Payload.id p) uuid)
                 (timestamp c1) in
  content (addTaskObject p uuid c1 d).2 = TasksFile [entry] (Some DEFAULT_CONF).
Proof.
  intros Hc Hp.
  assert (Hload : loadData d = (Returned empty_data, d)).
  { destruct d as [c n]. cbn in Hc. by destruct Hc as [-> | ->]. }
  assert (Hl : loaded d = empty_data) by (unfold loaded; by rewrite Hload).
  assert (Hal : after_load d = d) by (unfold after_load; by rewrite Hload).
  split_and!.
  - done.
  - apply initData_existing. by destruct Hc as [-> | ->].
  - unfold claimTask. by rewrite (bind_returned _ _ _ _ _ Hload).
  - unfold markDone. by rewrite (bind_returned _ _ _ _ _ Hload).
  - unfold markFailed. by rewrite (bind_returned _ _ _ _ _ Hload).
  - unfold listAction. rewrite (bind_returned _ _ _ _ _ Hload).
    destruct state as [s|]; [|done]. cbn. by destruct (negb _).
  - intros entry. rewrite (addTaskObject_valid _ _ _ _ Hp), Hl, Hal. done.
Qed.

Lemma X17_unreadable_file_witness :
  let d := {| content := Unparsable; writes := 0 |} in
  claimTask Sample.clock Sample.clock d = (Returned None, d) /\
  content (addTaskObject (Sample.payload None) "u-1" Sample.clock d).2 =
    TasksFile [new_entry (Sample.payload None) empty_data "u-1"
                 (timestamp Sample.clock)] (Some DEFAULT_CONF).
Proof.
  destruct (X17_unreadable_file PoolScript
              {| content := Unparsable; writes := 0 |} (Sample.payload None)
              "u-1" "x" "Exit 1" 0 3 1 None Sample.clock Sample.clock None)
    as (_ & _ & Hclaim & _ & _ & _ & Hadd).
  - left. reflexivity.
  - reflexivity.
  - split; [exact Hclaim|exact Hadd].
Defined.
